(** * Friday Saga service worker (sw.js): offline caching layer

    A shallow embedding of [sw.js]: the three event listeners ([install],
    [activate], [fetch]) written over a small promise monad that threads the
    state of the service-worker global scope (the cache storage, the log of
    network requests issued, the console, the detached promise chains, the
    lifecycle flags).  The browser's [Cache]/[CacheStorage] objects are
    modelled as ordered association lists, because [caches.match] searches
    the caches in creation order and a cache lists its entries in insertion
    order.

    Around the worker: the earlier revision of sw.js (module [V1]), the
    page's [DataLoader] whose fetches the worker answers, and the video
    identifier extraction of [YouTubeEmbed]. *)

From Stdlib Require Import Ascii String List Bool ZArith Lia DecimalString.
Import ListNotations.
Local Open Scope string_scope.
Local Open Scope list_scope.

(* ================================================================== *)
(** ** Requests, responses and URLs *)

(** A parsed URL, as [new URL(event.request.url)] exposes it: [pathname]
    never contains the query string, which is held by [search]. *)
Record URL := mkURL {
  origin : string;
  pathname : string;
  search : string
}.

Definition URL_eqb (a b : URL) : bool :=
  String.eqb (origin a) (origin b)
  && String.eqb (pathname a) (pathname b)
  && String.eqb (search a) (search b).

(** The part of a [Request] the worker reads.  All requests of the site are
    GET requests; the cache key of a request is its URL, query string
    included (no [ignoreSearch] option is passed anywhere in sw.js). *)
Record Request := mkRequest {
  url : URL;
  destination : string
}.

Record Response := mkResponse {
  status : Z;
  body : string
}.

(** [response.ok] *)
Definition ok (r : Response) : bool :=
  (200 <=? status r)%Z && (status r <=? 299)%Z.

(** A partial response (206 Partial Content), which the [Cache] interface
    refuses to store. *)
Definition partial (r : Response) : bool := (status r =? 206)%Z.

(* ================================================================== *)
(** ** The cache store *)

(** One cache (a generation): its entries in insertion order. *)
Definition Cache := list (URL * Response).

(** [cache.match(request)]: the first entry stored under the same URL. *)
Fixpoint cache_match (c : Cache) (k : URL) : option Response :=
  match c with
  | [] => None
  | (k', r) :: c' => if URL_eqb k' k then Some r else cache_match c' k
  end.

(** [cache.put(request, response)]: replaces the entry of the same key. *)
Definition cache_put (c : Cache) (k : URL) (r : Response) : Cache :=
  filter (fun e => negb (URL_eqb (fst e) k)) c ++ [(k, r)].

(** The cache storage: the named caches in creation order. *)
Definition CacheStorage := list (string * Cache).

Definition storage_has (s : CacheStorage) (name : string) : bool :=
  existsb (fun e => String.eqb (fst e) name) s.

Definition storage_open (s : CacheStorage) (name : string) : CacheStorage :=
  if storage_has s name then s else s ++ [(name, [])].

Definition storage_delete (s : CacheStorage) (name : string) : CacheStorage :=
  filter (fun e => negb (String.eqb (fst e) name)) s.

Definition storage_keys (s : CacheStorage) : list string := map fst s.

(** [caches.match(request)]: every cache is consulted, in creation order;
    the first hit wins. *)
Fixpoint storage_match (s : CacheStorage) (k : URL) : option Response :=
  match s with
  | [] => None
  | (_, c) :: s' =>
      match cache_match c k with
      | Some r => Some r
      | None => storage_match s' k
      end
  end.

Definition storage_update (s : CacheStorage) (name : string)
    (f : Cache -> Cache) : CacheStorage :=
  map (fun e => if String.eqb (fst e) name then (fst e, f (snd e)) else e) s.

(** The cache called [name], when there is one. *)
Fixpoint generation (s : CacheStorage) (name : string) : option Cache :=
  match s with
  | [] => None
  | (n, c) :: s' => if String.eqb n name then Some c else generation s' name
  end.

(* ================================================================== *)
(** ** The service-worker global scope and the promise monad *)

(** A promise chain that nobody awaits: [caches.open(name).then(cache =>
    { cache.put(request, response); })]. *)
Inductive Task :=
| OpenThenPut (cacheName : string) (key : URL) (response : Response).

#[projections(primitive)] Record World := mkWorld {
  location_origin : string;               (* self.location.origin *)
  network : Request -> option Response;   (* None: the fetch rejects *)
  caches : CacheStorage;
  fetched : list Request;                 (* network requests issued *)
  console : list string;
  pending : list Task;                    (* detached chains, not yet run *)
  skip_waiting : bool;                    (* self.skipWaiting() was called *)
  clients_claimed : bool                  (* self.clients.claim() was called *)
}.

Definition set_caches (w : World) (s : CacheStorage) : World :=
  mkWorld (location_origin w) (network w) s (fetched w) (console w)
          (pending w) (skip_waiting w) (clients_claimed w).

Definition log_fetches (w : World) (rs : list Request) : World :=
  mkWorld (location_origin w) (network w) (caches w) (fetched w ++ rs)
          (console w) (pending w) (skip_waiting w) (clients_claimed w).

Definition log_console (w : World) (line : string) : World :=
  mkWorld (location_origin w) (network w) (caches w) (fetched w)
          (console w ++ [line]) (pending w) (skip_waiting w)
          (clients_claimed w).

Definition set_pending (w : World) (ts : list Task) : World :=
  mkWorld (location_origin w) (network w) (caches w) (fetched w) (console w)
          ts (skip_waiting w) (clients_claimed w).

Definition set_network (w : World) (n : Request -> option Response) : World :=
  mkWorld (location_origin w) n (caches w) (fetched w) (console w)
          (pending w) (skip_waiting w) (clients_claimed w).

Inductive Settled (A : Type) :=
| Fulfilled (a : A)
| Rejected (reason : string).
Arguments Fulfilled {A} a.
Arguments Rejected {A} reason.

Definition Promise (A : Type) := World -> Settled A * World.

Definition resolve {A} (a : A) : Promise A := fun w => (Fulfilled a, w).

Definition then_ {A B} (p : Promise A) (f : A -> Promise B) : Promise B :=
  fun w =>
    match p w with
    | (Fulfilled a, w') => f a w'
    | (Rejected e, w') => (Rejected e, w')
    end.

Definition catch_ {A} (p : Promise A) (h : string -> Promise A) : Promise A :=
  fun w =>
    match p w with
    | (Fulfilled a, w') => (Fulfilled a, w')
    | (Rejected e, w') => h e w'
    end.

Notation "p >>= f" := (then_ p f) (at level 50, left associativity).
Notation "p 'orelse' h" := (catch_ p h) (at level 50, left associativity).

(** [Promise.all]: every promise of the list has been started, so all their
    effects happen; the result is rejected when one of them is. *)
Fixpoint Promise_all {A} (ps : list (Promise A)) : Promise (list A) :=
  fun w =>
    match ps with
    | [] => (Fulfilled [], w)
    | p :: ps' =>
        let (o, w1) := p w in
        let (os, w2) := Promise_all ps' w1 in
        (match o, os with
         | Fulfilled a, Fulfilled l => Fulfilled (a :: l)
         | Rejected e, _ => Rejected e
         | Fulfilled _, Rejected e => Rejected e
         end, w2)
    end.

(** *** The platform calls sw.js makes *)

(** A relative URL such as ['/index.html'] is resolved against the worker's
    own location. *)
Definition resolve_url (w : World) (path : string) : URL :=
  mkURL (location_origin w) path "".

Definition fetch (request : Request) : Promise Response :=
  fun w =>
    match network w request with
    | Some r => (Fulfilled r, log_fetches w [request])
    | None => (Rejected "TypeError: Failed to fetch", log_fetches w [request])
    end.

(** [caches.open(name)] creates the cache when it does not exist; the handle
    it resolves to is represented by the cache's name. *)
Definition caches_open (name : string) : Promise string :=
  fun w => (Fulfilled name, set_caches w (storage_open (caches w) name)).

Definition caches_keys : Promise (list string) :=
  fun w => (Fulfilled (storage_keys (caches w)), w).

Definition caches_delete (name : string) : Promise bool :=
  fun w => (Fulfilled (storage_has (caches w) name),
            set_caches w (storage_delete (caches w) name)).

(** [caches.match(request)]: resolves to [undefined] ([None]) on a miss. *)
Definition caches_match (k : URL) : Promise (option Response) :=
  fun w => (Fulfilled (storage_match (caches w) k), w).

(** [caches.match('/index.html')] *)
Definition caches_match_path (path : string) : Promise (option Response) :=
  fun w => caches_match (resolve_url w path) w.

(** [cache.put(request, response)] on the cache behind the handle: a
    response of status 206 is rejected with a TypeError and nothing is
    stored. *)
Definition cache_put_in (cache : string) (k : URL) (r : Response)
    : Promise unit :=
  fun w =>
    if partial r
    then (Rejected "TypeError: Partial response (status code 206) is unsupported",
          w)
    else (Fulfilled tt,
          set_caches w (storage_update (caches w) cache
                                       (fun c => cache_put c k r))).

(** The responses of a batch of requests, when every one of them is
    fulfilled with an ok status other than 206. *)
Fixpoint fetch_all (net : Request -> option Response) (rs : list Request)
    : option (list (URL * Response)) :=
  match rs with
  | [] => Some []
  | rq :: rs' =>
      match net rq with
      | Some r =>
          if ok r && negb (partial r) then
            match fetch_all net rs' with
            | Some es => Some ((url rq, r) :: es)
            | None => None
            end
          else None
      | None => None
      end
  end.

Definition put_all (c : Cache) (es : list (URL * Response)) : Cache :=
  fold_left (fun c e => cache_put c (fst e) (snd e)) es c.

(** [cache.addAll(urls)]: all the URLs are requested; the entries are
    written only when every response arrived, is ok and is not a 206,
    otherwise the promise rejects and nothing is written. *)
Definition cache_addAll (cache : string) (urls : list string)
    : Promise unit :=
  fun w =>
    let requests := map (fun p => mkRequest (resolve_url w p) "") urls in
    let w' := log_fetches w requests in
    match fetch_all (network w) requests with
    | Some es =>
        (Fulfilled tt,
         set_caches w' (storage_update (caches w') cache
                                       (fun c => put_all c es)))
    | None => (Rejected "TypeError: Failed to fetch", w')
    end.

Definition console_log (line : string) : Promise unit :=
  fun w => (Fulfilled tt, log_console w line).

(** A promise chain started and not returned: it runs later. *)
Definition detach (t : Task) : Promise unit :=
  fun w => (Fulfilled tt, set_pending w (pending w ++ [t])).

Definition self_skipWaiting (w : World) : World :=
  mkWorld (location_origin w) (network w) (caches w) (fetched w) (console w)
          (pending w) true (clients_claimed w).

Definition self_clients_claim (w : World) : World :=
  mkWorld (location_origin w) (network w) (caches w) (fetched w) (console w)
          (pending w) (skip_waiting w) true.

(** [event.waitUntil(p); rest]: [waitUntil] only registers the promise;
    the statements after it run synchronously, whatever [p] settles to. *)
Definition event_waitUntil {A} (p : Promise A) (rest : World -> World)
    : Promise A :=
  fun w => p (rest w).

(** What the page that issued the request observes for the promise handed
    to [event.respondWith]: a value that is not a [Response] ([undefined])
    or a rejection makes the page's fetch fail with a network error. *)
Definition respondWith (o : Settled (option Response)) : Settled Response :=
  match o with
  | Fulfilled (Some r) => Fulfilled r
  | Fulfilled None => Rejected "TypeError: Failed to fetch"
  | Rejected _ => Rejected "TypeError: Failed to fetch"
  end.

(** Running the detached chains. *)
Definition run_task (t : Task) : Promise unit :=
  match t with
  | OpenThenPut name k r =>
      caches_open name >>= (fun cache => cache_put_in cache k r)
  end.

Fixpoint run_tasks (ts : list Task) (w : World) : World :=
  match ts with
  | [] => w
  | t :: ts' => run_tasks ts' (snd (run_task t w))
  end.

Definition settle_pending (w : World) : World :=
  run_tasks (pending w) (set_pending w []).

(* ================================================================== *)
(** ** sw.js *)

Definition CACHE_NAME : string := "friday-saga-v2".
Definition STATIC_CACHE_NAME : string := "friday-saga-static-v2".

Definition urlsToCache : list string :=
  [ "/";
    "/index.html";
    "/styles.css";
    "/js/main.js";
    "/js/modules/Animations.js";
    "/js/modules/ContentRenderer.js";
    "/js/modules/DataLoader.js";
    "/js/modules/TabManager.js";
    "/js/modules/VideoLoader.js";
    "/js/modules/YouTubeEmbed.js";
    "/favicon.ico";
    "/favicon.svg";
    "/icon-192.png";
    "/icon-512.png" ].

Definition DATA_FILES : list string :=
  [ "/data/characters.json";
    "/data/jokes.json";
    "/data/themes.json";
    "/data/videos.json" ].

(** The promise handed to [event.waitUntil] by the install listener. *)
Definition install_population : Promise unit :=
  (caches_open STATIC_CACHE_NAME
     >>= (fun cache => cache_addAll cache urlsToCache))
  orelse (fun error => console_log ("Cache failed: " ++ error)).

Definition install_listener : Promise unit :=
  event_waitUntil install_population self_skipWaiting.

(** The promise handed to [event.waitUntil] by the activate listener. *)
Definition activate_cleanup : Promise (list (option bool)) :=
  caches_keys >>= (fun cacheNames =>
    Promise_all
      (map (fun cacheName =>
              if negb (String.eqb cacheName CACHE_NAME)
                 && negb (String.eqb cacheName STATIC_CACHE_NAME)
              then caches_delete cacheName >>= (fun b => resolve (Some b))
              else resolve None)
           cacheNames)).

Definition activate_listener : Promise (list (option bool)) :=
  event_waitUntil activate_cleanup self_clients_claim.

Definition isDataFile (u : URL) : bool :=
  existsb (fun dataPath => String.eqb (pathname u) dataPath) DATA_FILES.

Definition offline_response : Response := mkResponse 503 "Offline".

(** Network-first strategy for data files. *)
Definition data_policy (request : Request) : Promise (option Response) :=
  (fetch request >>= (fun response =>
     let responseToCache := response in
     detach (OpenThenPut CACHE_NAME (url request) responseToCache)
       >>= (fun _ => resolve (Some response))))
  orelse (fun _ =>
     caches_match (url request) >>= (fun cachedResponse =>
       resolve (match cachedResponse with
                | Some r => Some r
                | None => Some offline_response
                end))).

(** Cache-first strategy for static assets. *)
Definition static_policy (request : Request) : Promise (option Response) :=
  (caches_match (url request) >>= (fun response =>
     match response with
     | Some r => resolve (Some r)
     | None =>
         fetch request >>= (fun networkResponse =>
           let responseToCache := networkResponse in
           detach (OpenThenPut STATIC_CACHE_NAME (url request) responseToCache)
             >>= (fun _ => resolve (Some networkResponse)))
     end))
  orelse (fun _ =>
     if String.eqb (destination request) "document"
     then caches_match_path "/index.html"
     else resolve None).

(** The promise handed to [event.respondWith] by the fetch listener. *)
Definition fetch_listener (request : Request) : Promise (option Response) :=
  if isDataFile (url request) then data_policy request
  else static_policy request.

(* ================================================================== *)
(** ** Auxiliary definitions for the proofs *)

(** The two names the activate listener keeps. *)
Definition current (name : string) : bool :=
  String.eqb name CACHE_NAME || String.eqb name STATIC_CACHE_NAME.

(** The delete decision taken by the activate listener for one name. *)
Definition cleanup_one (cacheName : string) : Promise (option bool) :=
  if negb (String.eqb cacheName CACHE_NAME)
     && negb (String.eqb cacheName STATIC_CACHE_NAME)
  then caches_delete cacheName >>= (fun b => resolve (Some b))
  else resolve None.

Definition sweep (names : list string) (s : CacheStorage) : CacheStorage :=
  fold_left (fun s n => if current n then s else storage_delete s n) names s.

(** The requests [cache.addAll(urlsToCache)] issues. *)
Definition manifest_request (w : World) (path : string) : Request :=
  mkRequest (resolve_url w path) "".

(** *** Sample worlds, used to run the listeners on concrete inputs *)

Definition site : string := "https://friday.example".

(** A network on which every request is answered 200, the body naming the
    resource. *)
Definition online (rq : Request) : option Response :=
  Some (mkResponse 200 (pathname (url rq) ++ search (url rq))).

(** A network on which every request fails. *)
Definition offline (rq : Request) : option Response := None.

(** A network on which every request is answered with the given status. *)
Definition answering (code : Z) (rq : Request) : option Response :=
  Some (mkResponse code "error page").

(** A network that is up except for one path, whose fetch fails. *)
Definition missing (path : string) (rq : Request) : option Response :=
  if String.eqb (pathname (url rq)) path then None else online rq.

(** A store in which the data generation, created first, holds an entry
    under the URL of the stylesheet, and the static generation another. *)
Definition shadowed_world : World :=
  mkWorld site online
    [ (CACHE_NAME, [(mkURL site "/styles.css" "", mkResponse 200 "old")]);
      (STATIC_CACHE_NAME,
       [(mkURL site "/styles.css" "", mkResponse 200 "new")]) ]
    [] [] [] true true.

(** A page of the sample site stamping its data requests: the path is
    resolved against the origin and the [_t] parameter carries the time. *)
Definition site_stamp (filePath : string) (now : Z) : option URL :=
  Some (mkURL site ("/" ++ filePath)
          ("?_t=" ++ DecimalString.NilZero.string_of_int (Z.to_int now))).

(** A store in which the data generation holds the videos as they were
    fetched with the stamp [_t=1]. *)
Definition stamped_world (net : Request -> option Response) : World :=
  mkWorld site net
    [ (CACHE_NAME,
       [(mkURL site "/data/videos.json" "?_t=1",
         mkResponse 200 "/data/videos.json?_t=1")]) ]
    [] [] [] true true.

(** An origin whose cache storage is still empty. *)
Definition fresh_world (net : Request -> option Response) : World :=
  mkWorld site net [] [] [] [] false false.

Definition get (path query dest : string) : Request :=
  mkRequest (mkURL site path query) dest.

(* ================================================================== *)
(** ** The life of a worker *)

(** What can happen to a worker: its three events, the completion of
    detached writes (all the pending ones in the order they were started,
    or any single one), and a change of the network conditions. *)
Inductive Event :=
| Install
| Activate
| Fetch (request : Request)
| Settle
| SettleOne (i : nat)
| Network (net : Request -> option Response).

Definition settle_one (i : nat) (w : World) : World :=
  match nth_error (pending w) i with
  | Some t =>
      snd (run_task t
             (set_pending w (firstn i (pending w) ++ skipn (S i) (pending w))))
  | None => w
  end.

Definition dispatch (e : Event) (w : World) : World :=
  match e with
  | Install => snd (install_listener w)
  | Activate => snd (activate_listener w)
  | Fetch request => snd (fetch_listener request w)
  | Settle => settle_pending w
  | SettleOne i => settle_one i w
  | Network net => set_network w net
  end.

Definition run (es : list Event) (w : World) : World :=
  fold_left (fun w e => dispatch e w) es w.

(** The entries of the cache called [name]; none when it does not exist. *)
Definition entries (s : CacheStorage) (name : string) : Cache :=
  match generation s name with
  | Some c => c
  | None => []
  end.

(** Some cache of the storage holds the response [r] under the URL [k]. *)
Definition stored_under (s : CacheStorage) (k : URL) (r : Response) : Prop :=
  exists n c, In (n, c) s /\ In (k, r) c.

(** The caches called [name]. *)
Definition called (name : string) (s : CacheStorage) : CacheStorage :=
  filter (fun e => String.eqb (fst e) name) s.

(** Which generation a URL belongs to. *)
Definition home (k : URL) : string :=
  if isDataFile k then CACHE_NAME else STATIC_CACHE_NAME.

(** The caches are the two current generations at most, each existing
    once, and every stored entry sits in the generation of its URL. *)
Definition sorted_store (s : CacheStorage) : Prop :=
  NoDup (storage_keys s)
  /\ forall n c, In (n, c) s ->
       (n = CACHE_NAME \/ n = STATIC_CACHE_NAME)
       /\ forall k r, In (k, r) c -> home k = n.

(** The same of the entries about to be stored. *)
Definition sorted_tasks (ts : list Task) : Prop :=
  forall n k r, In (OpenThenPut n k r) ts -> home k = n.

Definition partitioned (w : World) : Prop :=
  sorted_store (caches w) /\ sorted_tasks (pending w).

(* ================================================================== *)
(** ** The earlier revision of the worker (friday-saga-v1) *)

Module V1.

Definition CACHE_NAME : string := "friday-saga-v1".

Definition urlsToCache : list string :=
  [ "/";
    "/index.html";
    "/styles.css";
    "/js/main.js";
    "/js/modules/Animations.js";
    "/js/modules/ContentRenderer.js";
    "/js/modules/DataLoader.js";
    "/js/modules/TabManager.js";
    "/js/modules/VideoLoader.js";
    "/js/modules/YouTubeEmbed.js";
    "/data/characters.json";
    "/data/jokes.json";
    "/data/themes.json";
    "/data/videos.json";
    "/favicon.ico";
    "/favicon.svg";
    "/icon-192.png";
    "/icon-512.png" ].

Definition install_listener : Promise unit :=
  event_waitUntil
    ((caches_open CACHE_NAME
        >>= (fun cache => cache_addAll cache urlsToCache))
     orelse (fun error => console_log ("Cache failed: " ++ error)))
    self_skipWaiting.

Definition activate_listener : Promise (list (option bool)) :=
  event_waitUntil
    (caches_keys >>= (fun cacheNames =>
       Promise_all
         (map (fun cacheName =>
                 if negb (String.eqb cacheName CACHE_NAME)
                 then caches_delete cacheName >>= (fun b => resolve (Some b))
                 else resolve None)
              cacheNames)))
    self_clients_claim.

(** Serve from cache, fall back to network. *)
Definition fetch_listener (request : Request) : Promise (option Response) :=
  (caches_match (url request) >>= (fun response =>
     match response with
     | Some r => resolve (Some r)
     | None => fetch request >>= (fun r => resolve (Some r))
     end))
  orelse (fun _ =>
     if String.eqb (destination request) "document"
     then caches_match_path "/index.html"
     else resolve None).

End V1.

(* ================================================================== *)
(** ** The page side: DataLoader.js *)

(** How a fetch issued by a page the worker controls is answered: the
    browser dispatches a fetch event and gives the page what the promise
    handed to respondWith settles to. *)
Definition controlled_fetch (request : Request)
    : World -> Settled Response * World :=
  fun w =>
    let (o, w') := fetch_listener request w in (respondWith o, w').

Module DataLoader.

(** A JavaScript [Map] with string keys: its entries in insertion order. *)
Definition JsMap (V : Type) := list (string * V).

Definition Map_has {V} (m : JsMap V) (key : string) : bool :=
  existsb (fun e => String.eqb (fst e) key) m.

(** [map.get(key)]; [None] is [undefined]. *)
Fixpoint Map_get {V} (m : JsMap V) (key : string) : option V :=
  match m with
  | [] => None
  | (k, v) :: m' => if String.eqb k key then Some v else Map_get m' key
  end.

(** [map.set(key, value)]: an existing key keeps its place. *)
Fixpoint Map_set {V} (m : JsMap V) (key : string) (value : V) : JsMap V :=
  match m with
  | [] => [(key, value)]
  | (k, v) :: m' =>
      if String.eqb k key then (k, value) :: m'
      else (k, v) :: Map_set m' key value
  end.

Definition Map_delete {V} (m : JsMap V) (key : string) : JsMap V :=
  filter (fun e => negb (String.eqb (fst e) key)) m.

(** What the try block of [loadData] can throw. *)
Inductive LoadError :=
| UrlError (filePath : string)                    (* new URL(...) threw *)
| FetchError (reason : string)                    (* the fetch rejected *)
| HttpError (filePath : string) (response : Response)
    (* new Error(`Failed to load ${filePath}: ${status} ${statusText}`) *)
| JsonError (text : string).                      (* response.json() threw *)

Inductive ConsoleLine :=
| console_error (message : string) (error : LoadError)
| console_warn (message : string).

Section Loader.

(** The parsed JSON values, and [response.json()] on a body ([None]: the
    body is not JSON). *)
Variable Data : Type.
Variable json : string -> option Data.

(** The URL [new URL(filePath, window.location.origin)] once its search
    parameter [_t] has been set to [now.toString()]; [None] when the
    [URL] constructor throws (the path does not parse). *)
Variable stamp : string -> Z -> option URL.

(** The page's [fetch], which acts on the worker's world when the page is
    controlled. *)
Variable page_fetch : Request -> World -> Settled Response * World.

(** The loader (its two maps), the page's console and the world of the
    worker behind the page's fetch. *)
Record State := mkState {
  cache : JsMap Data;
  cacheTimestamps : JsMap Z;
  lines : list ConsoleLine;
  world : World
}.

Definition CACHE_DURATION : Z := 5 * 60 * 1000.

(** A number used as a condition: 0 is falsy. *)
Definition truthy (n : Z) : bool := negb (n =? 0)%Z.

(** How a call of an async method completes: the value it returns
    ([None] is [undefined]) or the error it throws. *)
Inductive Completion :=
| Return (value : option Data)
| Throw (error : LoadError).

Definition log (st : State) (l : ConsoleLine) : State :=
  mkState (cache st) (cacheTimestamps st) (lines st ++ [l]) (world st).

(** The check made before any fetch: is there an entry that is still
    fresh? *)
Definition fresh (st : State) (filePath : string) (forceRefresh : bool)
    (now : Z) : bool :=
  if negb forceRefresh && Map_has (cache st) filePath then
    match Map_get (cacheTimestamps st) filePath with
    | Some timestamp =>
        truthy timestamp && (now - timestamp <? CACHE_DURATION)%Z
    | None => false
    end
  else false.

(** The try block: the data it gets, or the error it throws. *)
Definition try_load (st : State) (filePath : string) (now : Z)
    : (LoadError + Data) * State :=
  match stamp filePath now with
  | None => (inl (UrlError filePath), st)
  | Some url =>
      match page_fetch (mkRequest url "") (world st) with
      | (Fulfilled response, w') =>
          let st1 := mkState (cache st) (cacheTimestamps st) (lines st) w' in
          if negb (ok response)
          then (inl (HttpError filePath response), st1)
          else
            match json (body response) with
            | Some data =>
                (inr data,
                 mkState (Map_set (cache st) filePath data)
                         (Map_set (cacheTimestamps st) filePath now)
                         (lines st) w')
            | None => (inl (JsonError (body response)), st1)
            end
      | (Rejected reason, w') =>
          (inl (FetchError reason),
           mkState (cache st) (cacheTimestamps st) (lines st) w')
      end
  end.

Definition loadData (filePath : string) (forceRefresh : bool) (now : Z)
    (st : State) : Completion * State :=
  if fresh st filePath forceRefresh now then
    (Return (Map_get (cache st) filePath), st)
  else
    match try_load st filePath now with
    | (inr data, st') => (Return (Some data), st')
    | (inl error, st') =>
        let st1 :=
          log st' (console_error
                     ("Error loading data from " ++ filePath ++ ":") error)
        in
        if Map_has (cache st1) filePath then
          (Return (Map_get (cache st1) filePath),
           log st1 (console_warn
                      ("Using stale cached data for " ++ filePath)))
        else (Throw error, st1)
    end.

Definition clearCache (st : State) : State :=
  mkState [] [] (lines st) (world st).

(** One turn of the loop of [clearExpiredCache]. *)
Definition expire_one (now : Z) (st : State) (e : string * Z) : State :=
  let (filePath, timestamp) := e in
  if (now - timestamp >=? CACHE_DURATION)%Z then
    mkState (Map_delete (cache st) filePath)
            (Map_delete (cacheTimestamps st) filePath)
            (lines st) (world st)
  else st.

Definition clearExpiredCache (now : Z) (st : State) : State :=
  fold_left (expire_one now) (cacheTimestamps st) st.

(** The two maps of a loader go together: each key once, and the same
    keys in both. *)
Definition paired (st : State) : Prop :=
  NoDup (map fst (cache st))
  /\ map fst (cacheTimestamps st) = map fst (cache st).

End Loader.

Arguments mkState {Data} cache cacheTimestamps lines world.
Arguments cache {Data} s.
Arguments cacheTimestamps {Data} s.
Arguments lines {Data} s.
Arguments world {Data} s.
Arguments Return {Data} value.
Arguments Throw {Data} error.
Arguments log {Data} st l.
Arguments fresh {Data} st filePath forceRefresh now.
Arguments try_load {Data} json stamp page_fetch st filePath now.
Arguments loadData {Data} json stamp page_fetch filePath forceRefresh now st.
Arguments clearCache {Data} st.
Arguments expire_one {Data} now st e.
Arguments clearExpiredCache {Data} now st.
Arguments paired {Data} st.

End DataLoader.

(** *** Sample loaders *)

(** A page's body taken as its own JSON value. *)
Definition text_json (text : string) : option string := Some text.

(** A loader that holds two paths, loaded at times 1000 and 400000. *)
Definition sample_loader (w : World) : DataLoader.State string :=
  DataLoader.mkState
    [("data/jokes.json", "jokes"); ("data/themes.json", "themes")]
    [("data/jokes.json", 1000%Z); ("data/themes.json", 400000%Z)]
    [] w.

(* ================================================================== *)
(** ** YouTubeEmbed.js: video identifiers *)

Module YouTubeEmbed.

(** Strings are taken as sequences of bytes; the characters the regular
    expressions name are all ASCII. *)

(** The line feed, written [\n] in the regular expressions. *)
Definition LF : Ascii.ascii := Ascii.ascii_of_nat 10.

(** The class [[^&\n?#]]. *)
Definition id_char (c : Ascii.ascii) : bool :=
  negb (Ascii.eqb c "&" || Ascii.eqb c LF || Ascii.eqb c "?"
        || Ascii.eqb c "#")%char.

(** The longest prefix made of characters of the class. *)
Fixpoint id_run (s : string) : string :=
  match s with
  | EmptyString => EmptyString
  | String c s' => if id_char c then String c (id_run s') else EmptyString
  end.

(** What follows a literal at the head of a string. *)
Fixpoint after (literal s : string) : option string :=
  match literal with
  | EmptyString => Some s
  | String a literal' =>
      match s with
      | EmptyString => None
      | String b s' => if Ascii.eqb a b then after literal' s' else None
      end
  end.

(** A match of [(?:l1|l2|...)([^&\n?#]+)] starting at the head of the
    string: the alternatives are tried in order, and the group, which is
    greedy and ends the pattern, captures the whole run. *)
Fixpoint match_here (literals : list string) (s : string) : option string :=
  match literals with
  | [] => None
  | l :: ls =>
      match after l s with
      | Some rest =>
          match id_run rest with
          | EmptyString => match_here ls s
          | String c run => Some (String c run)
          end
      | None => match_here ls s
      end
  end.

(** [s.match(/(?:l1|l2|...)([^&\n?#]+)/)]: the group of the leftmost
    match. *)
Fixpoint first_match (literals : list string) (s : string) : option string :=
  match match_here literals s with
  | Some id => Some id
  | None =>
      match s with
      | EmptyString => None
      | String _ s' => first_match literals s'
      end
  end.

Definition extractVideoId (url : string) : option string :=
  if String.eqb url "" then None
  else
    match first_match ["youtube.com/watch?v="; "youtu.be/"] url with
    | Some id => Some id
    | None => first_match ["youtube.com/shorts/"] url
    end.

Definition getEmbedUrl (videoId : string) : string :=
  if String.eqb videoId "" then ""
  else "https://www.youtube.com/embed/" ++ videoId.

(** [true] when every character of the string satisfies [f]. *)
Fixpoint every (f : Ascii.ascii -> bool) (s : string) : bool :=
  match s with
  | EmptyString => true
  | String c s' => f c && every f s'
  end.

End YouTubeEmbed.

(* ================================================================== *)
(** ** Facts about the cache store *)

(** Closes [~ In p l] for a concrete string [p] and a concrete list [l]. *)
Ltac not_listed :=
  let H := fresh "H" in
  simpl; intros H; repeat (destruct H as [H|H]; [discriminate H|]); exact H.

Lemma URL_eqb_eq (a b : URL) : URL_eqb a b = true <-> a = b.
Proof.
  unfold URL_eqb. rewrite !andb_true_iff, !String.eqb_eq.
  destruct a, b; simpl. split.
  - intros [[-> ->] ->]. reflexivity.
  - intros H. injection H as -> -> ->. auto.
Qed.

Lemma URL_eqb_refl (a : URL) : URL_eqb a a = true.
Proof. apply URL_eqb_eq. reflexivity. Qed.

Lemma URL_eqb_neq (a b : URL) : URL_eqb a b = false <-> a <> b.
Proof.
  rewrite <- URL_eqb_eq. destruct (URL_eqb a b); split; congruence.
Qed.

Lemma current_iff (n : string) :
  current n = true <-> n = CACHE_NAME \/ n = STATIC_CACHE_NAME.
Proof. unfold current. rewrite orb_true_iff, !String.eqb_eq. tauto. Qed.

Lemma cleanup_all_run (names : list string) :
  forall w, exists l,
    Promise_all (map cleanup_one names) w
    = (Fulfilled l, set_caches w (sweep names (caches w))).
Proof.
  induction names as [|n names IH]; intros w.
  - exists []. reflexivity.
  - simpl. unfold cleanup_one at 1, current.
    destruct (String.eqb n CACHE_NAME) eqn:E1; simpl.
    + destruct (IH w) as [l Hl]. rewrite Hl. eexists. reflexivity.
    + destruct (String.eqb n STATIC_CACHE_NAME) eqn:E2; simpl.
      * destruct (IH w) as [l Hl]. rewrite Hl. eexists. reflexivity.
      * unfold then_, caches_delete, resolve.
        destruct (IH (set_caches w (storage_delete (caches w) n))) as [l Hl].
        rewrite Hl. eexists. reflexivity.
Qed.

Lemma sweep_filter (names : list string) :
  forall s,
    sweep names s
    = filter (fun e => current (fst e)
                       || negb (existsb (String.eqb (fst e)) names)) s.
Proof.
  induction names as [|n names IH]; intros s; simpl.
  - symmetry. apply forallb_filter_id. apply forallb_forall.
    intros e _. apply orb_true_r.
  - rewrite IH. destruct (current n) eqn:Hc.
    + apply filter_ext. intros e.
      destruct (String.eqb (fst e) n) eqn:E; simpl; [|reflexivity].
      apply String.eqb_eq in E. rewrite E, Hc. reflexivity.
    + unfold storage_delete.
      induction s as [|e s IHs]; simpl; [reflexivity|].
      destruct (String.eqb (fst e) n) eqn:E; simpl.
      * apply String.eqb_eq in E. rewrite E, Hc. simpl. exact IHs.
      * rewrite IHs. reflexivity.
Qed.

Lemma sweep_keys (s : CacheStorage) :
  sweep (storage_keys s) s = filter (fun e => current (fst e)) s.
Proof.
  rewrite sweep_filter. apply filter_ext_in. intros e He.
  replace (existsb (String.eqb (fst e)) (storage_keys s)) with true.
  - simpl. apply orb_false_r.
  - symmetry. apply existsb_exists. exists (fst e). split.
    + unfold storage_keys. apply in_map. exact He.
    + apply String.eqb_refl.
Qed.

(** The activate listener, in closed form. *)
Lemma activate_listener_run (w : World) :
  exists l,
    activate_listener w
    = (Fulfilled l,
       set_caches (self_clients_claim w)
                  (filter (fun e => current (fst e)) (caches w))).
Proof.
  destruct (cleanup_all_run (storage_keys (caches (self_clients_claim w)))
              (self_clients_claim w)) as [l Hl].
  exists l.
  change (activate_listener w)
    with (Promise_all
            (map cleanup_one (storage_keys (caches (self_clients_claim w))))
            (self_clients_claim w)).
  rewrite Hl. simpl. rewrite sweep_keys. reflexivity.
Qed.

Lemma generation_filter_current (s : CacheStorage) (n : string) :
  current n = true ->
  generation (filter (fun e => current (fst e)) s) n = generation s n.
Proof.
  intros Hn. induction s as [|[m c] s IH]; simpl; [reflexivity|].
  destruct (current m) eqn:Hm; simpl.
  - destruct (String.eqb m n); [reflexivity | exact IH].
  - destruct (String.eqb m n) eqn:E; [|exact IH].
    apply String.eqb_eq in E. congruence.
Qed.

(* ================================================================== *)
(** ** The activate listener *)

(** C1 (as amended).  After the activate listener completes, the cache names
    present are exactly the initial names that equal one of the two current
    names: every other name has been deleted, and a current name that was
    present is kept together with its entries.  The listener creates no
    cache, so a current name that was absent stays absent. *)
Theorem activate_keeps_exactly_current_names (w : World) :
  let w' := snd (activate_listener w) in
  (exists l, fst (activate_listener w) = Fulfilled l)
  /\ (forall n, In n (storage_keys (caches w'))
               <-> In n (storage_keys (caches w))
                   /\ (n = CACHE_NAME \/ n = STATIC_CACHE_NAME))
  /\ (forall n, n = CACHE_NAME \/ n = STATIC_CACHE_NAME ->
               generation (caches w') n = generation (caches w) n).
Proof.
  destruct (activate_listener_run w) as [l Hl]. rewrite Hl. simpl.
  split; [exists l; reflexivity|]. split.
  - intros n. unfold storage_keys. rewrite !in_map_iff. split.
    + intros [e [<- He]]. apply filter_In in He. destruct He as [He Hc].
      split; [exists e; auto | apply current_iff; exact Hc].
    + intros [[e [<- He]] Hc]. exists e. split; [reflexivity|].
      apply filter_In. split; [exact He | apply current_iff; exact Hc].
  - intros n Hn. apply generation_filter_current. apply current_iff. exact Hn.
Qed.

(** C1, witness of the last part at a store holding a stale generation. *)
Lemma activate_keeps_exactly_current_names_witness :
  generation
    (caches (snd (activate_listener
       (mkWorld site online
          [("friday-saga-v1", []); (STATIC_CACHE_NAME, [])]
          [] [] [] false false))))
    STATIC_CACHE_NAME
  = Some [].
Proof.
  pose proof (activate_keeps_exactly_current_names
    (mkWorld site online
       [("friday-saga-v1", []); (STATIC_CACHE_NAME, [])]
       [] [] [] false false)) as H.
  destruct H as [_ [_ H]].
  rewrite (H STATIC_CACHE_NAME (or_intror eq_refl)). reflexivity.
Defined.

(** C1, as stated, fails: on an origin with an empty cache storage, install
    (with the network up) followed by activate leaves only the static
    generation; the data generation's name is not present. *)
Lemma activate_after_first_install_lacks_data_generation :
  let names :=
    storage_keys (caches (snd (activate_listener
                                 (snd (install_listener (fresh_world online))))))
  in names = [STATIC_CACHE_NAME] /\ ~ In CACHE_NAME names.
Proof.
  vm_compute. split; [reflexivity|]. intros [H|[]]. discriminate H.
Qed.

(** C9.  Running the activate listener twice in a row leaves the same cache
    storage, hence the same set of generation names, as running it once. *)
Theorem activate_idempotent (w : World) :
  let once := snd (activate_listener w) in
  let twice := snd (activate_listener once) in
  caches twice = caches once
  /\ storage_keys (caches twice) = storage_keys (caches once).
Proof.
  destruct (activate_listener_run w) as [l Hl]. rewrite Hl. simpl.
  destruct (activate_listener_run
              (set_caches (self_clients_claim w)
                 (filter (fun e => current (fst e)) (caches w)))) as [l' Hl'].
  rewrite Hl'. simpl.
  assert (E : filter (fun e : string * Cache => current (fst e))
                (filter (fun e => current (fst e)) (caches w))
              = filter (fun e => current (fst e)) (caches w)).
  { apply forallb_filter_id. apply forallb_forall. intros e He.
    apply filter_In in He. tauto. }
  rewrite E. split; reflexivity.
Qed.

(* ================================================================== *)
(** ** The fetch listener: routing *)

Lemma isDataFile_In (u : URL) :
  isDataFile u = true <-> In (pathname u) DATA_FILES.
Proof.
  unfold isDataFile. rewrite existsb_exists. split.
  - intros [p [Hp E]]. apply String.eqb_eq in E. congruence.
  - intros H. exists (pathname u). split; [exact H | apply String.eqb_refl].
Qed.

Lemma isDataFile_not_In (u : URL) :
  isDataFile u = false <-> ~ In (pathname u) DATA_FILES.
Proof.
  rewrite <- isDataFile_In. destruct (isDataFile u); split; congruence.
Qed.

(** The two policies are different functions: with an empty store and no
    network, the data policy answers 503 and the static policy nothing. *)
Lemma policies_differ (request : Request) :
  data_policy request <> static_policy request.
Proof.
  intros E.
  assert (H : fst (data_policy request (fresh_world offline))
              = fst (static_policy request (fresh_world offline)))
    by (rewrite E; reflexivity).
  unfold data_policy, static_policy, catch_, then_, fetch, caches_match,
    caches_match_path, caches_match, resolve in H. simpl in H.
  destruct (String.eqb (destination request) "document"); discriminate H.
Qed.

(** C7.  The fetch listener hands the request to the data policy exactly
    when the pathname of its URL is an element of DATA_FILES, and to the
    static policy otherwise; the decision reads the pathname only, so the
    query string (and the origin) play no part. *)
Theorem router_exact_pathname_match (request : Request) :
  (fetch_listener request = data_policy request
   <-> In (pathname (url request)) DATA_FILES)
  /\ (fetch_listener request = static_policy request
      <-> ~ In (pathname (url request)) DATA_FILES)
  /\ (forall request' : Request,
        pathname (url request') = pathname (url request) ->
        isDataFile (url request') = isDataFile (url request)).
Proof.
  unfold fetch_listener. split; [|split].
  - rewrite <- isDataFile_In.
    destruct (isDataFile (url request)); split; intros H;
      try reflexivity; try discriminate H.
    symmetry in H. apply policies_differ in H. contradiction.
  - rewrite <- isDataFile_not_In.
    destruct (isDataFile (url request)); split; intros H;
      try reflexivity; try discriminate H.
    apply policies_differ in H. contradiction.
  - intros request' E. unfold isDataFile. rewrite E. reflexivity.
Qed.

(** C7, witness: a listed path carrying a cache-busting query string. *)
Lemma router_exact_pathname_match_witness :
  fetch_listener (get "/data/videos.json" "?_t=1700000000000" "")
  = data_policy (get "/data/videos.json" "?_t=1700000000000" "").
Proof.
  apply (router_exact_pathname_match
           (get "/data/videos.json" "?_t=1700000000000" "")).
  simpl. tauto.
Defined.

(** Paths that only share a prefix with a listed path, and API-like paths
    that are not listed, go to the static policy. *)
Example router_no_prefix_matching :
  isDataFile (mkURL site "/data/videos.json.bak" "") = false
  /\ isDataFile (mkURL site "/data/videos" "") = false
  /\ isDataFile (mkURL site "/data/" "") = false
  /\ isDataFile (mkURL site "/data/videos.json/1" "") = false
  /\ isDataFile (mkURL site "/api/videos.json" "") = false
  /\ isDataFile (mkURL site "/data/videos.json" "?page=2") = true.
Proof. repeat split. Qed.

(* ================================================================== *)
(** ** The fetch listener: data policy *)

Lemma cache_match_In (c : Cache) (k : URL) (r : Response) :
  cache_match c k = Some r -> In (k, r) c.
Proof.
  induction c as [|[k0 r0] c IH]; simpl; [discriminate|].
  destruct (URL_eqb k0 k) eqn:E.
  - intros H. injection H as ->. apply URL_eqb_eq in E. subst k0. auto.
  - intros H. right. apply IH. exact H.
Qed.

Lemma cache_match_absent (c : Cache) (k : URL) :
  (forall r, ~ In (k, r) c) -> cache_match c k = None.
Proof.
  intros H. destruct (cache_match c k) as [r|] eqn:E; [|reflexivity].
  apply cache_match_In in E. destruct (H r E).
Qed.

Lemma storage_match_stored (s : CacheStorage) (k : URL) (r : Response) :
  storage_match s k = Some r -> stored_under s k r.
Proof.
  unfold stored_under. induction s as [|[n c] s IH]; simpl; [discriminate|].
  destruct (cache_match c k) as [r'|] eqn:E.
  - intros H. injection H as ->. exists n, c. split; [auto|].
    apply cache_match_In. exact E.
  - intros H. destruct (IH H) as [n' [c' [H1 H2]]]. exists n', c'. auto.
Qed.

Lemma storage_match_absent (s : CacheStorage) (k : URL) :
  (forall r, ~ stored_under s k r) -> storage_match s k = None.
Proof.
  intros H. destruct (storage_match s k) as [r|] eqn:E; [|reflexivity].
  apply storage_match_stored in E. destruct (H r E).
Qed.

Lemma storage_match_finds (s : CacheStorage) (k : URL) (r : Response) :
  stored_under s k r -> exists r', storage_match s k = Some r'.
Proof.
  intros [n [c [Hs Hc]]].
  destruct (storage_match s k) as [r'|] eqn:E; [exists r'; reflexivity|].
  exfalso. revert Hs E. induction s as [|[n0 c0] s IH]; simpl; [tauto|].
  destruct (cache_match c0 k) eqn:E0; [discriminate|].
  intros [Hs | Hs] E.
  - injection Hs as -> ->. clear IH. induction c as [|[k1 r1] c IH]; [tauto|].
    simpl in E0. destruct (URL_eqb k1 k) eqn:E1; [discriminate|].
    destruct Hc as [Hc | Hc].
    + injection Hc as -> ->. rewrite URL_eqb_refl in E1. discriminate.
    + apply IH; assumption.
  - apply IH; assumption.
Qed.

(** C2.  For a request whose pathname is in DATA_FILES, when the network
    fetch fails the promise handed to respondWith is always fulfilled with
    a response, never the failure.  When some cache holds an entry under
    the request's URL, query string included, the response is one stored
    under that URL, as it is (the only one when there is only one).  When
    no cache holds an entry under that very URL, the response is the
    synthetic one, status 503 and body "Offline": also when the store
    holds the same path under another query string, which is where the
    code departs from the claim. *)
Theorem data_policy_offline_fallback (w : World) (request : Request) :
  In (pathname (url request)) DATA_FILES ->
  network w request = None ->
  (exists response,
      respondWith (fst (fetch_listener request w)) = Fulfilled response)
  /\ ((exists r, stored_under (caches w) (url request) r) ->
      exists stored,
        stored_under (caches w) (url request) stored
        /\ respondWith (fst (fetch_listener request w)) = Fulfilled stored)
  /\ (forall stored,
        stored_under (caches w) (url request) stored ->
        (forall r, stored_under (caches w) (url request) r -> r = stored) ->
        respondWith (fst (fetch_listener request w)) = Fulfilled stored)
  /\ ((forall r, ~ stored_under (caches w) (url request) r) ->
      respondWith (fst (fetch_listener request w))
      = Fulfilled (mkResponse 503 "Offline")).
Proof.
  intros Hp Hn. apply isDataFile_In in Hp.
  assert (E : fetch_listener request w
              = (Fulfilled (Some (match storage_match (caches w) (url request)
                                  with
                                  | Some stored => stored
                                  | None => mkResponse 503 "Offline"
                                  end)),
                 log_fetches w [request])).
  { unfold fetch_listener. rewrite Hp.
    unfold data_policy, catch_, then_, fetch. rewrite Hn.
    unfold caches_match, resolve. simpl.
    destruct (storage_match (caches w) (url request)); reflexivity. }
  rewrite E. cbn [fst respondWith]. split; [eexists; reflexivity|].
  split; [|split].
  - intros [r Hr]. destruct (storage_match_finds _ _ _ Hr) as [r' Hr'].
    exists r'. rewrite Hr'. split; [|reflexivity].
    apply storage_match_stored. exact Hr'.
  - intros stored Hs Huniq.
    destruct (storage_match_finds _ _ _ Hs) as [r' Hr']. rewrite Hr'.
    rewrite (Huniq r' (storage_match_stored _ _ _ Hr')). reflexivity.
  - intros Hnone. rewrite (storage_match_absent _ _ Hnone). reflexivity.
Qed.

(** C2, the failing input: the data generation holds the videos under the
    stamp [_t=1]; with the network down, the request for the same path
    stamped [_t=2] gets the 503 and not the stored response. *)
Lemma data_policy_offline_fallback_witness :
  stored_under (caches (stamped_world offline))
    (mkURL site "/data/videos.json" "?_t=1")
    (mkResponse 200 "/data/videos.json?_t=1")
  /\ respondWith (fst (fetch_listener (get "/data/videos.json" "?_t=2" "")
                                      (stamped_world offline)))
     = Fulfilled (mkResponse 503 "Offline").
Proof.
  split.
  - exists CACHE_NAME,
      [(mkURL site "/data/videos.json" "?_t=1",
        mkResponse 200 "/data/videos.json?_t=1")].
    split; left; reflexivity.
  - apply (data_policy_offline_fallback (stamped_world offline)
             (get "/data/videos.json" "?_t=2" "")).
    + simpl. tauto.
    + reflexivity.
    + intros r [n [c [Hs Hc]]]. simpl in Hs.
      destruct Hs as [Hs | []]. injection Hs as <- <-.
      destruct Hc as [Hc | []]. discriminate Hc.
Defined.

(** With the very same query string the stored response is returned. *)
Example data_policy_offline_hit :
  respondWith (fst (fetch_listener (get "/data/videos.json" "?_t=1" "")
                                   (stamped_world offline)))
  = Fulfilled (mkResponse 200 "/data/videos.json?_t=1").
Proof. reflexivity. Qed.

(** *** Writes to a generation *)

Lemma cache_match_app (c1 c2 : Cache) (k : URL) :
  cache_match (c1 ++ c2) k
  = match cache_match c1 k with
    | Some r => Some r
    | None => cache_match c2 k
    end.
Proof.
  induction c1 as [|[k' r'] c1 IH]; simpl; [reflexivity|].
  destruct (URL_eqb k' k); [reflexivity | exact IH].
Qed.

Lemma cache_match_remove (c : Cache) (k' k : URL) :
  cache_match (filter (fun e => negb (URL_eqb (fst e) k')) c) k
  = if URL_eqb k' k then None else cache_match c k.
Proof.
  induction c as [|[k0 r0] c IH]; simpl.
  - destruct (URL_eqb k' k); reflexivity.
  - destruct (URL_eqb k0 k') eqn:E0; simpl.
    + apply URL_eqb_eq in E0. subst k0. rewrite IH.
      destruct (URL_eqb k' k); reflexivity.
    + rewrite IH. destruct (URL_eqb k0 k) eqn:E1; [|reflexivity].
      apply URL_eqb_eq in E1. subst k0. rewrite URL_eqb_neq in E0.
      destruct (URL_eqb k' k) eqn:E2; [|reflexivity].
      apply URL_eqb_eq in E2. congruence.
Qed.

Lemma cache_match_put_same (c : Cache) (k : URL) (r : Response) :
  cache_match (cache_put c k r) k = Some r.
Proof.
  unfold cache_put. rewrite cache_match_app, cache_match_remove.
  rewrite URL_eqb_refl. simpl. rewrite URL_eqb_refl. reflexivity.
Qed.

Lemma cache_match_put_other (c : Cache) (k' k : URL) (r : Response) :
  URL_eqb k' k = false ->
  cache_match (cache_put c k' r) k = cache_match c k.
Proof.
  intros E. unfold cache_put. rewrite cache_match_app, cache_match_remove.
  rewrite E. simpl. rewrite E. destruct (cache_match c k); reflexivity.
Qed.

Lemma generation_update (s : CacheStorage) (name : string)
    (f : Cache -> Cache) :
  generation (storage_update s name f) name
  = option_map f (generation s name).
Proof.
  induction s as [|[n c] s IH]; simpl; [reflexivity|].
  destruct (String.eqb n name) eqn:E; simpl; rewrite E;
    [reflexivity | exact IH].
Qed.

Lemma generation_open (s : CacheStorage) (name : string) :
  exists c, generation (storage_open s name) name = Some c.
Proof.
  unfold storage_open. destruct (storage_has s name) eqn:H.
  - unfold storage_has in H. induction s as [|[n c] s IH]; simpl in *.
    + discriminate H.
    + destruct (String.eqb n name); [eexists; reflexivity | apply IH, H].
  - clear H. induction s as [|[n c] s IH]; simpl.
    + rewrite String.eqb_refl. eexists; reflexivity.
    + destruct (String.eqb n name); [eexists; reflexivity | exact IH].
Qed.

Lemma generation_open_eq (s : CacheStorage) (name : string) :
  generation (storage_open s name) name = Some (entries s name).
Proof.
  unfold storage_open, entries. destruct (storage_has s name) eqn:H.
  - unfold storage_has in H. induction s as [|[n c] s IH]; simpl in *.
    + discriminate H.
    + destruct (String.eqb n name); [reflexivity | apply IH, H].
  - unfold storage_has in H. induction s as [|[n c] s IH]; simpl in *.
    + rewrite String.eqb_refl. reflexivity.
    + destruct (String.eqb n name); [discriminate H | apply IH, H].
Qed.

(** A detached write, in closed form: the cache is opened (created when
    it does not exist); the put stores the response unless it is a 206,
    which is refused. *)
Lemma run_task_run (w : World) (name : string) (k : URL) (r : Response) :
  snd (run_task (OpenThenPut name k r) w)
  = if partial r
    then set_caches w (storage_open (caches w) name)
    else set_caches w
           (storage_update (storage_open (caches w) name) name
                           (fun c => cache_put c k r)).
Proof.
  unfold run_task, then_, caches_open, cache_put_in.
  destruct (partial r); reflexivity.
Qed.

(** Once a detached write of a response that is not a 206 has run, its
    generation holds the response under the key. *)
Lemma run_task_stores (w : World) (name : string) (k : URL) (r : Response) :
  partial r = false ->
  exists c,
    generation (caches (snd (run_task (OpenThenPut name k r) w))) name = Some c
    /\ cache_match c k = Some r.
Proof.
  intros Hr. rewrite run_task_run, Hr. simpl.
  rewrite generation_update.
  destruct (generation_open (caches w) name) as [c Hc]. rewrite Hc. simpl.
  eexists. split; [reflexivity | apply cache_match_put_same].
Qed.

Lemma partial_status (r : Response) :
  partial r = false <-> status r <> 206%Z.
Proof. unfold partial. apply Z.eqb_neq. Qed.

Lemma run_tasks_app (ts : list Task) (t : Task) :
  forall w, run_tasks (ts ++ [t]) w = snd (run_task t (run_tasks ts w)).
Proof.
  induction ts as [|t0 ts IH]; intros w; simpl; [reflexivity | apply IH].
Qed.

(** The data policy when the network answers. *)
Lemma fetch_listener_data_success
    (w : World) (request : Request) (response : Response) :
  isDataFile (url request) = true ->
  network w request = Some response ->
  fetch_listener request w
  = (Fulfilled (Some response),
     set_pending (log_fetches w [request])
       (pending w ++ [OpenThenPut CACHE_NAME (url request) response])).
Proof.
  intros Hp Hn. unfold fetch_listener. rewrite Hp.
  unfold data_policy, catch_, then_, fetch. rewrite Hn. reflexivity.
Qed.

(** The data policy when the network fails and some cache holds the URL. *)
Lemma data_policy_fallback_hit (w : World) (request : Request) (r : Response) :
  isDataFile (url request) = true ->
  network w request = None ->
  storage_match (caches w) (url request) = Some r ->
  fst (fetch_listener request w) = Fulfilled (Some r).
Proof.
  intros Hp Hn Hs. unfold fetch_listener. rewrite Hp.
  unfold data_policy, catch_, then_, fetch. rewrite Hn.
  unfold caches_match, resolve. simpl. rewrite Hs. reflexivity.
Qed.

(** The static policy on a miss, when the network answers. *)
Lemma fetch_listener_static_miss_success
    (w : World) (request : Request) (response : Response) :
  isDataFile (url request) = false ->
  storage_match (caches w) (url request) = None ->
  network w request = Some response ->
  fetch_listener request w
  = (Fulfilled (Some response),
     set_pending (log_fetches w [request])
       (pending w ++ [OpenThenPut STATIC_CACHE_NAME (url request) response])).
Proof.
  intros Hp Hm Hn. unfold fetch_listener. rewrite Hp.
  unfold static_policy, catch_, then_, caches_match. rewrite Hm.
  unfold fetch. rewrite Hn. reflexivity.
Qed.

(** The store after the single pending write has run. *)
Lemma settle_single_write (w : World) (name : string) (k : URL)
    (r : Response) :
  partial r = false ->
  caches (settle_pending (set_pending w [OpenThenPut name k r]))
  = storage_update (storage_open (caches w) name) name
      (fun c => cache_put c k r).
Proof.
  intros Hr. unfold settle_pending. cbn [pending set_pending run_tasks].
  rewrite run_task_run, Hr. reflexivity.
Qed.

(** C3 (as amended).  For a request whose pathname is in DATA_FILES, when
    the network fetch succeeds the promise handed to respondWith is
    fulfilled with the network response itself; the only trace of the write
    when the response is returned is a detached chain (open the data
    generation, put the duplicate under the request's URL) added to the
    pending ones, the store being still unchanged.  Once the pending chains
    have run, the data generation holds that response under the request's
    URL, unless its status is 206: the put of a partial response is
    refused, and the data generation keeps what it held. *)
Theorem data_policy_network_success
    (w : World) (request : Request) (response : Response) :
  In (pathname (url request)) DATA_FILES ->
  network w request = Some response ->
  let w' := snd (fetch_listener request w) in
  fetch_listener request w
  = (Fulfilled (Some response),
     set_pending (log_fetches w [request])
       (pending w ++ [OpenThenPut CACHE_NAME (url request) response]))
  /\ respondWith (fst (fetch_listener request w)) = Fulfilled response
  /\ caches w' = caches w
  /\ (status response <> 206%Z ->
      exists c,
        generation (caches (settle_pending w')) CACHE_NAME = Some c
        /\ cache_match c (url request) = Some response)
  /\ (status response = 206%Z ->
      pending w = [] ->
      entries (caches (settle_pending w')) CACHE_NAME
      = entries (caches w) CACHE_NAME).
Proof.
  intros Hp Hn. apply isDataFile_In in Hp.
  pose proof (fetch_listener_data_success w request response Hp Hn) as E.
  simpl. rewrite E. simpl. repeat split.
  - intros Hs. apply partial_status in Hs.
    unfold settle_pending. simpl pending. rewrite run_tasks_app.
    apply run_task_stores. exact Hs.
  - intros Hs Hpend. unfold settle_pending. simpl pending. rewrite Hpend.
    cbn [app run_tasks]. rewrite run_task_run.
    unfold partial. rewrite Hs. cbn [Z.eqb Pos.eqb caches set_caches].
    unfold entries at 1. rewrite generation_open_eq. reflexivity.
Qed.

(** C3, witness: a data request answered by the network on a fresh origin;
    its response is in the data generation once the write has run. *)
Lemma data_policy_network_success_witness :
  exists c,
    generation
      (caches (settle_pending
                 (snd (fetch_listener (get "/data/themes.json" "" "")
                                      (fresh_world online)))))
      CACHE_NAME = Some c
    /\ cache_match c (mkURL site "/data/themes.json" "")
       = Some (mkResponse 200 "/data/themes.json").
Proof.
  apply (data_policy_network_success (fresh_world online)
           (get "/data/themes.json" "" "") (mkResponse 200 "/data/themes.json")).
  - simpl. tauto.
  - reflexivity.
  - discriminate.
Defined.

(** C3, as stated, fails for a partial response: the network answers a
    data request with status 206, the page gets that response, and once
    the detached write has run the data generation exists but holds
    nothing: with the network down, the same request gets the 503. *)
Lemma partial_data_response_not_stored :
  let w' := settle_pending
              (snd (fetch_listener (get "/data/videos.json" "" "")
                                   (fresh_world (answering 206)))) in
  respondWith (fst (fetch_listener (get "/data/videos.json" "" "")
                                   (fresh_world (answering 206))))
  = Fulfilled (mkResponse 206 "error page")
  /\ generation (caches w') CACHE_NAME = Some []
  /\ fst (fetch_listener (get "/data/videos.json" "" "")
                         (set_network w' offline))
     = Fulfilled (Some (mkResponse 503 "Offline")).
Proof. repeat split. Qed.

(* ================================================================== *)
(** ** The fetch listener: static policy *)

(** C6.  For a request handed to the static policy, when the cache lookup
    misses and the network fetch fails: a request whose destination is a
    document is answered with what the store holds for /index.html, as it
    is and whatever path was requested; any other request gets no
    substitute (the promise is fulfilled with undefined), so the page's
    fetch fails. *)
Theorem static_policy_double_failure (w : World) (request : Request) :
  ~ In (pathname (url request)) DATA_FILES ->
  storage_match (caches w) (url request) = None ->
  network w request = None ->
  fetch_listener request w
  = (Fulfilled (if String.eqb (destination request) "document"
                then storage_match (caches w) (resolve_url w "/index.html")
                else None),
     log_fetches w [request])
  /\ (destination request = "document" ->
      forall root,
        storage_match (caches w) (resolve_url w "/index.html") = Some root ->
        respondWith (fst (fetch_listener request w)) = Fulfilled root)
  /\ (destination request <> "document" ->
      fst (fetch_listener request w) = Fulfilled None
      /\ respondWith (fst (fetch_listener request w))
         = Rejected "TypeError: Failed to fetch").
Proof.
  intros Hp Hm Hn. apply isDataFile_not_In in Hp.
  assert (E : fetch_listener request w
              = (Fulfilled
                   (if String.eqb (destination request) "document"
                    then storage_match (caches w) (resolve_url w "/index.html")
                    else None),
                 log_fetches w [request])).
  { unfold fetch_listener. rewrite Hp.
    unfold static_policy, catch_, then_, caches_match. rewrite Hm.
    unfold fetch. rewrite Hn.
    destruct (String.eqb (destination request) "document"); reflexivity. }
  rewrite E. simpl. split; [reflexivity|]. split.
  - intros Hd root Hr. rewrite Hd. simpl. rewrite Hr. reflexivity.
  - intros Hd. apply String.eqb_neq in Hd. rewrite Hd. split; reflexivity.
Qed.

(** C6, witness: a navigation to an unknown page while offline, the root
    document being stored. *)
Lemma static_policy_double_failure_witness :
  respondWith
    (fst (fetch_listener (get "/characters" "" "document")
            (mkWorld site offline
               [(STATIC_CACHE_NAME,
                 [(mkURL site "/index.html" "", mkResponse 200 "<html>")])]
               [] [] [] true true)))
  = Fulfilled (mkResponse 200 "<html>").
Proof.
  apply (static_policy_double_failure
           (mkWorld site offline
              [(STATIC_CACHE_NAME,
                [(mkURL site "/index.html" "", mkResponse 200 "<html>")])]
              [] [] [] true true)
           (get "/characters" "" "document")).
  - not_listed.
  - reflexivity.
  - reflexivity.
  - reflexivity.
  - reflexivity.
Defined.

(** A static request whose URL some cache holds is answered from the store:
    the world is left as it was (no network request, no write). *)
Lemma static_policy_hit (w : World) (request : Request) (r : Response) :
  isDataFile (url request) = false ->
  storage_match (caches w) (url request) = Some r ->
  fetch_listener request w = (Fulfilled (Some r), w).
Proof.
  intros Hp Hm. unfold fetch_listener. rewrite Hp.
  unfold static_policy, catch_, then_, caches_match. rewrite Hm. reflexivity.
Qed.

(** *** Lookups across the whole storage *)

Lemma storage_match_app (s1 s2 : CacheStorage) (k : URL) :
  storage_match (s1 ++ s2) k
  = match storage_match s1 k with
    | Some r => Some r
    | None => storage_match s2 k
    end.
Proof.
  induction s1 as [|[n c] s1 IH]; simpl; [reflexivity|].
  destruct (cache_match c k); [reflexivity | exact IH].
Qed.

Lemma storage_match_filter_none (p : string * Cache -> bool)
    (s : CacheStorage) (k : URL) :
  storage_match s k = None -> storage_match (filter p s) k = None.
Proof.
  induction s as [|[n c] s IH]; simpl; [reflexivity|].
  destruct (cache_match c k) eqn:E; [discriminate|]. intros H.
  destruct (p (n, c)); simpl; [rewrite E|]; apply IH, H.
Qed.

(** After every cache called [name] received a write of [r] under [k], and
    when no other cache holds [k], a lookup across the storage finds [r]. *)
Lemma storage_match_update (s : CacheStorage) (name : string)
    (f : Cache -> Cache) (k : URL) (r : Response) :
  (forall c, cache_match (f c) k = Some r) ->
  storage_match (storage_delete s name) k = None ->
  storage_match (storage_update s name f) k
  = if storage_has s name then Some r else None.
Proof.
  intros Hf. unfold storage_delete, storage_has.
  induction s as [|[n c] s IH]; simpl; [reflexivity|].
  destruct (String.eqb n name) eqn:E; simpl.
  - intros _. rewrite Hf. reflexivity.
  - destruct (cache_match c k) eqn:Ec; [discriminate|]. exact IH.
Qed.

Lemma storage_match_update_open (s : CacheStorage) (name : string)
    (f : Cache -> Cache) (k : URL) (r : Response) :
  (forall c, cache_match (f c) k = Some r) ->
  storage_match (storage_delete s name) k = None ->
  storage_match (storage_update (storage_open s name) name f) k = Some r.
Proof.
  intros Hf Hd. unfold storage_open. destruct (storage_has s name) eqn:H.
  - rewrite (storage_match_update s name f k r Hf Hd), H. reflexivity.
  - unfold storage_update. rewrite map_app. fold (storage_update s name f).
    rewrite storage_match_app, (storage_match_update s name f k r Hf Hd), H.
    simpl. rewrite String.eqb_refl. simpl. rewrite Hf. reflexivity.
Qed.

(* ================================================================== *)
(** ** Responses are stored whatever their status *)

(** C10 (as amended).  Neither policy looks at the status of a fulfilled
    network response before writing it: for any response the network
    gives, whatever its status (a 404 or a 500 as well) except 206, once
    the detached write has run the policy's generation holds it under the
    request's URL.  It is then served again: by the static policy as a
    cache hit, with no network request, and by the data policy as the
    fallback when the network fails (no other cache holding that URL).
    A 206 is the one status that is not stored: the put refuses it. *)
Theorem fulfilled_responses_stored_whatever_status
    (w : World) (request : Request) (response : Response) :
  network w request = Some response ->
  status response <> 206%Z ->
  pending w = [] ->
  let w' := settle_pending (snd (fetch_listener request w)) in
  (In (pathname (url request)) DATA_FILES ->
   (exists c, generation (caches w') CACHE_NAME = Some c
              /\ cache_match c (url request) = Some response)
   /\ (storage_match (storage_delete (caches w) CACHE_NAME) (url request)
       = None ->
       forall net', net' request = None ->
         fst (fetch_listener request (set_network w' net'))
         = Fulfilled (Some response)))
  /\ (~ In (pathname (url request)) DATA_FILES ->
      storage_match (caches w) (url request) = None ->
      (exists c, generation (caches w') STATIC_CACHE_NAME = Some c
                 /\ cache_match c (url request) = Some response)
      /\ (forall net',
            fetch_listener request (set_network w' net')
            = (Fulfilled (Some response), set_network w' net'))).
Proof.
  intros Hn Hs Hpend. apply partial_status in Hs. simpl. split.
  - intros Hp. apply isDataFile_In in Hp.
    rewrite (fetch_listener_data_success w request response Hp Hn), Hpend.
    simpl snd. simpl app. split.
    + unfold settle_pending. cbn [pending set_pending run_tasks].
      apply run_task_stores. exact Hs.
    + intros Hd net' Hoff.
      apply data_policy_fallback_hit; [exact Hp | exact Hoff |].
      change (storage_match
                (caches (settle_pending
                   (set_pending (log_fetches w [request])
                      [OpenThenPut CACHE_NAME (url request) response])))
                (url request) = Some response).
      rewrite settle_single_write by exact Hs.
      apply storage_match_update_open.
      * intros c. apply cache_match_put_same.
      * exact Hd.
  - intros Hp Hm. apply isDataFile_not_In in Hp.
    rewrite (fetch_listener_static_miss_success w request response Hp Hm Hn),
      Hpend.
    simpl snd. simpl app. split.
    + unfold settle_pending. cbn [pending set_pending run_tasks].
      apply run_task_stores. exact Hs.
    + intros net'. apply static_policy_hit; [exact Hp|].
      change (storage_match
                (caches (settle_pending
                   (set_pending (log_fetches w [request])
                      [OpenThenPut STATIC_CACHE_NAME (url request) response])))
                (url request) = Some response).
      rewrite settle_single_write by exact Hs.
      apply storage_match_update_open.
      * intros c. apply cache_match_put_same.
      * apply storage_match_filter_none. exact Hm.
Qed.

(** C10, witness: a 404 answer to a static request is written to the static
    generation and served from it afterwards, with the network down. *)
Lemma fulfilled_responses_stored_whatever_status_witness :
  fetch_listener (get "/missing.png" "" "image")
    (set_network
       (settle_pending
          (snd (fetch_listener (get "/missing.png" "" "image")
                               (fresh_world (answering 404)))))
       offline)
  = (Fulfilled (Some (mkResponse 404 "error page")),
     set_network
       (settle_pending
          (snd (fetch_listener (get "/missing.png" "" "image")
                               (fresh_world (answering 404)))))
       offline).
Proof.
  apply (fulfilled_responses_stored_whatever_status
           (fresh_world (answering 404)) (get "/missing.png" "" "image")
           (mkResponse 404 "error page")).
  - reflexivity.
  - discriminate.
  - reflexivity.
  - not_listed.
  - reflexivity.
Defined.

(** C10, as stated, fails at status 206.  A static request that misses the
    store is answered 206 by the network; the page gets that response and
    a write is started, but once it has run the static generation holds no
    entry: the next request for the same URL is no cache hit, it goes to
    the network again, and with the network down it gets no response. *)
Lemma partial_response_never_cached :
  let request := get "/clip.mp4" "" "video" in
  let w' := settle_pending
              (snd (fetch_listener request (fresh_world (answering 206)))) in
  fst (fetch_listener request (fresh_world (answering 206)))
  = Fulfilled (Some (mkResponse 206 "error page"))
  /\ generation (caches w') STATIC_CACHE_NAME = Some []
  /\ fetched (snd (fetch_listener request w')) = [request; request]
  /\ fst (fetch_listener request (set_network w' offline)) = Fulfilled None.
Proof. repeat split. Qed.

(** A 500 answer to a data request is written to the data generation and is
    the fallback served when the network is down. *)
Example data_policy_serves_stored_500 :
  let w1 := settle_pending
              (snd (fetch_listener (get "/data/videos.json" "" "")
                                   (fresh_world (answering 500)))) in
  generation (caches w1) CACHE_NAME
  = Some [(mkURL site "/data/videos.json" "", mkResponse 500 "error page")]
  /\ fst (fetch_listener (get "/data/videos.json" "" "")
                         (set_network w1 offline))
     = Fulfilled (Some (mkResponse 500 "error page")).
Proof. split; reflexivity. Qed.

(* ================================================================== *)
(** ** The install listener *)

(** The install listener, in closed form. *)
Lemma install_listener_run (w : World) :
  install_listener w
  = let requests := map (manifest_request w) urlsToCache in
    let w1 := log_fetches (self_skipWaiting w) requests in
    match fetch_all (network w) requests with
    | Some es =>
        (Fulfilled tt,
         set_caches w1
           (storage_update (storage_open (caches w) STATIC_CACHE_NAME)
              STATIC_CACHE_NAME (fun c => put_all c es)))
    | None =>
        (Fulfilled tt,
         log_console
           (set_caches w1 (storage_open (caches w) STATIC_CACHE_NAME))
           "Cache failed: TypeError: Failed to fetch")
    end.
Proof.
  unfold install_listener, event_waitUntil, install_population, catch_, then_,
    caches_open, cache_addAll.
  repeat match goal with
         | |- context [map ?f urlsToCache] =>
             progress change (map f urlsToCache)
               with (map (manifest_request w) urlsToCache)
         end.
  cbn [network caches set_caches self_skipWaiting log_fetches].
  destruct (fetch_all (network w) (map (manifest_request w) urlsToCache));
    reflexivity.
Qed.

Lemma fetch_all_fails (net : Request -> option Response) (rs : list Request)
    (rq : Request) :
  In rq rs ->
  net rq = None \/ (exists r, net rq = Some r /\ ok r = false) ->
  fetch_all net rs = None.
Proof.
  intros Hin Hf. induction rs as [|r0 rs IH]; simpl; [contradiction|].
  destruct Hin as [->|Hin].
  - destruct Hf as [-> | [r [-> Hr]]]; [reflexivity|]. rewrite Hr. reflexivity.
  - rewrite (IH Hin). destruct (net r0) as [r|]; [|reflexivity].
    destruct (ok r && negb (partial r)); reflexivity.
Qed.

(** C8.  The install listener never lets a population failure out: the
    promise it hands to waitUntil is always fulfilled and skipWaiting is
    always called.  The population is a single unit: when the fetch of any
    one manifest entry fails (rejects, or is answered with a status that is
    not ok), nothing is written (the static generation is only created,
    when it did not exist) and the failure is logged on the console. *)
Theorem install_population_failure_swallowed (w : World) :
  fst (install_listener w) = Fulfilled tt
  /\ skip_waiting (snd (install_listener w)) = true
  /\ (forall p,
        In p urlsToCache ->
        network w (manifest_request w p) = None
        \/ (exists r, network w (manifest_request w p) = Some r
                      /\ ok r = false) ->
        caches (snd (install_listener w))
        = storage_open (caches w) STATIC_CACHE_NAME
        /\ console (snd (install_listener w))
           = console w ++ ["Cache failed: TypeError: Failed to fetch"]).
Proof.
  rewrite install_listener_run. cbv zeta.
  destruct (fetch_all (network w) (map (manifest_request w) urlsToCache))
    as [es|] eqn:E.
  - split; [reflexivity|]. split; [reflexivity|]. intros p Hp Hf.
    rewrite (fetch_all_fails (network w) (map (manifest_request w) urlsToCache)
               (manifest_request w p)) in E.
    + discriminate E.
    + apply in_map. exact Hp.
    + exact Hf.
  - repeat split.
Qed.

(** C8, witness: one icon of the manifest cannot be fetched. *)
Lemma install_population_failure_swallowed_witness :
  caches (snd (install_listener (fresh_world (missing "/favicon.svg"))))
  = [(STATIC_CACHE_NAME, [])]
  /\ console (snd (install_listener (fresh_world (missing "/favicon.svg"))))
     = ["Cache failed: TypeError: Failed to fetch"].
Proof.
  apply (install_population_failure_swallowed
           (fresh_world (missing "/favicon.svg"))) with (p := "/favicon.svg").
  - simpl. tauto.
  - left. reflexivity.
Defined.

(** *** A successful population *)

Lemma fetch_all_success (net : Request -> option Response)
    (rs : list Request) :
  (forall rq, In rq rs ->
              exists r, net rq = Some r /\ ok r = true /\ status r <> 206%Z) ->
  exists es,
    fetch_all net rs = Some es
    /\ (forall k r, In (k, r) es
                    <-> exists rq, In rq rs /\ url rq = k /\ net rq = Some r).
Proof.
  induction rs as [|r0 rs IH]; intros H; simpl.
  - exists []. split; [reflexivity|]. intros k r. split.
    + intros [].
    + intros [rq [[] _]].
  - destruct (H r0 (or_introl eq_refl)) as [a [Ha [Hok Hs]]].
    apply partial_status in Hs. rewrite Ha, Hok, Hs. cbn [negb andb].
    destruct IH as [es [Hes Hin]].
    { intros rq Hrq. apply H. right. exact Hrq. }
    rewrite Hes. exists ((url r0, a) :: es). split; [reflexivity|].
    intros k r. simpl. rewrite Hin. split.
    + intros [E | [rq [Hrq [Hk Hr]]]].
      * injection E as <- <-. exists r0. auto.
      * exists rq. auto.
    + intros [rq [[<- | Hrq] [Hk Hr]]].
      * left. rewrite Ha in Hr. injection Hr as <-. rewrite Hk. reflexivity.
      * right. exists rq. auto.
Qed.

Lemma put_all_match (es : list (URL * Response)) (k : URL) (r : Response) :
  (forall r', In (k, r') es -> r' = r) ->
  forall c,
    In (k, r) es \/ cache_match c k = Some r ->
    cache_match (put_all c es) k = Some r.
Proof.
  unfold put_all. induction es as [|[k0 r0] es IH]; intros Hfun c Hc; simpl.
  - destruct Hc as [[] | Hc]. exact Hc.
  - apply IH.
    + intros r' Hr'. apply Hfun. right. exact Hr'.
    + destruct (URL_eqb k0 k) eqn:E.
      * apply URL_eqb_eq in E. subst k0. right.
        rewrite (Hfun r0 (or_introl eq_refl)). apply cache_match_put_same.
      * destruct Hc as [[Hc | Hc] | Hc].
        -- injection Hc as -> ->. rewrite URL_eqb_refl in E. discriminate E.
        -- left. exact Hc.
        -- right. rewrite cache_match_put_other; assumption.
Qed.

(** The lookup across the storage after a write to the caches called
    [name] and the activate cleanup, when [name] is one of the kept names
    and no other cache holds [k]. *)
Lemma storage_match_update_kept (s : CacheStorage) (name : string)
    (f : Cache -> Cache) (k : URL) (r : Response) :
  current name = true ->
  (forall c, cache_match (f c) k = Some r) ->
  storage_match (storage_delete s name) k = None ->
  storage_match
    (filter (fun e => current (fst e)) (storage_update s name f)) k
  = if storage_has s name then Some r else None.
Proof.
  intros Hcur Hf. unfold storage_delete, storage_has.
  induction s as [|[n c] s IH]; simpl; [reflexivity|].
  destruct (String.eqb n name) eqn:E; simpl.
  - intros _. apply String.eqb_eq in E. subst n. rewrite Hcur. simpl.
    rewrite Hf. reflexivity.
  - destruct (cache_match c k) eqn:Ec; [discriminate|]. intros H.
    destruct (current n); simpl; [rewrite Ec|]; apply IH, H.
Qed.

Lemma storage_match_update_open_kept (s : CacheStorage) (name : string)
    (f : Cache -> Cache) (k : URL) (r : Response) :
  current name = true ->
  (forall c, cache_match (f c) k = Some r) ->
  storage_match (storage_delete s name) k = None ->
  storage_match
    (filter (fun e => current (fst e))
            (storage_update (storage_open s name) name f)) k
  = Some r.
Proof.
  intros Hcur Hf Hd. unfold storage_open. destruct (storage_has s name) eqn:H.
  - rewrite (storage_match_update_kept s name f k r Hcur Hf Hd), H.
    reflexivity.
  - unfold storage_update. rewrite map_app, filter_app.
    fold (storage_update s name f).
    rewrite storage_match_app,
      (storage_match_update_kept s name f k r Hcur Hf Hd), H.
    simpl. rewrite String.eqb_refl. simpl. rewrite Hcur. simpl.
    rewrite Hf. reflexivity.
Qed.

(** The lookup across the storage after a write to the static caches and
    the activate cleanup, when no cache called as the data generation
    holds [k]: the other caches are deleted by activate. *)
Lemma storage_match_static_kept (s : CacheStorage) (f : Cache -> Cache)
    (k : URL) (r : Response) :
  (forall c, cache_match (f c) k = Some r) ->
  storage_match (called CACHE_NAME s) k = None ->
  storage_match
    (filter (fun e => current (fst e))
            (storage_update s STATIC_CACHE_NAME f)) k
  = if storage_has s STATIC_CACHE_NAME then Some r else None.
Proof.
  intros Hf. unfold called, storage_has, current.
  induction s as [|[n c] s IH]; simpl; [reflexivity|].
  destruct (String.eqb n STATIC_CACHE_NAME) eqn:Es; simpl.
  - intros _. rewrite Es, orb_true_r. simpl. rewrite Hf. reflexivity.
  - destruct (String.eqb n CACHE_NAME) eqn:Ec; simpl.
    + destruct (cache_match c k); [discriminate | exact IH].
    + rewrite Es. simpl. exact IH.
Qed.

Lemma storage_match_static_open_kept (s : CacheStorage) (f : Cache -> Cache)
    (k : URL) (r : Response) :
  (forall c, cache_match (f c) k = Some r) ->
  storage_match (called CACHE_NAME s) k = None ->
  storage_match
    (filter (fun e => current (fst e))
            (storage_update (storage_open s STATIC_CACHE_NAME)
                            STATIC_CACHE_NAME f)) k
  = Some r.
Proof.
  intros Hf Hd. unfold storage_open.
  destruct (storage_has s STATIC_CACHE_NAME) eqn:H.
  - rewrite (storage_match_static_kept s f k r Hf Hd), H. reflexivity.
  - unfold storage_update. rewrite map_app, filter_app.
    fold (storage_update s STATIC_CACHE_NAME f).
    rewrite storage_match_app, (storage_match_static_kept s f k r Hf Hd), H.
    simpl. rewrite Hf. reflexivity.
Qed.

(** When only the caches called [name] hold [k], the lookup across the
    storage returns what the first of them holds. *)
Lemma storage_match_only_generation (s : CacheStorage) (name : string)
    (c : Cache) (k : URL) (r : Response) :
  generation s name = Some c ->
  cache_match c k = Some r ->
  storage_match (storage_delete s name) k = None ->
  storage_match s k = Some r.
Proof.
  unfold storage_delete. induction s as [|[n c0] s IH]; simpl.
  - discriminate.
  - destruct (String.eqb n name) eqn:E; simpl.
    + intros Hc Hr _. injection Hc as ->. rewrite Hr. reflexivity.
    + intros Hc Hr. destruct (cache_match c0 k); [discriminate|].
      apply IH; assumption.
Qed.

Lemma manifest_paths_static (w : World) (p : string) :
  In p urlsToCache -> isDataFile (resolve_url w p) = false.
Proof.
  intros H. simpl in H.
  repeat (destruct H as [<-|H]; [reflexivity|]). contradiction.
Qed.

(** The store after a successful install followed by activate. *)
Lemma install_activate_run (w : World) (es : list (URL * Response)) :
  fetch_all (network w) (map (manifest_request w) urlsToCache) = Some es ->
  caches (snd (activate_listener (snd (install_listener w))))
  = filter (fun e => current (fst e))
      (storage_update (storage_open (caches w) STATIC_CACHE_NAME)
         STATIC_CACHE_NAME (fun c => put_all c es)).
Proof.
  intros E. rewrite install_listener_run. cbv zeta. rewrite E. simpl snd.
  match goal with
  | |- caches (snd (activate_listener ?w1)) = _ =>
      destruct (activate_listener_run w1) as [l Hl]; rewrite Hl
  end.
  reflexivity.
Qed.

(* ================================================================== *)
(** ** Query strings and the data fallback *)

(** C4 fails on the code.  Entries are keyed by the whole URL, query string
    included.  DataLoader stamps every data request with a fresh [_t]
    parameter; the response fetched for [?_t=1] is stored under that URL,
    and when the network is down the request for [?_t=2] does not match
    it: the fallback is the synthetic 503, although a response for the same
    path is stored.  Only the identical query string matches. *)
Lemma data_fallback_misses_other_query_string :
  let w1 := settle_pending
              (snd (fetch_listener (get "/data/videos.json" "?_t=1" "")
                                   (fresh_world online))) in
  generation (caches w1) CACHE_NAME
  = Some [(mkURL site "/data/videos.json" "?_t=1",
           mkResponse 200 "/data/videos.json?_t=1")]
  /\ fst (fetch_listener (get "/data/videos.json" "?_t=2" "")
                         (set_network w1 offline))
     = Fulfilled (Some (mkResponse 503 "Offline"))
  /\ fst (fetch_listener (get "/data/videos.json" "" "")
                         (set_network w1 offline))
     = Fulfilled (Some (mkResponse 503 "Offline"))
  /\ fst (fetch_listener (get "/data/videos.json" "?_t=1" "")
                         (set_network w1 offline))
     = Fulfilled (Some (mkResponse 200 "/data/videos.json?_t=1")).
Proof. repeat split. Qed.

(* ================================================================== *)
(** ** Further properties of the fetch listener *)

(** The fetch listener, in closed form. *)
Lemma fetch_listener_run (w : World) (request : Request) :
  fetch_listener request w
  = if isDataFile (url request) then
      match network w request with
      | Some r =>
          (Fulfilled (Some r),
           set_pending (log_fetches w [request])
             (pending w ++ [OpenThenPut CACHE_NAME (url request) r]))
      | None =>
          (Fulfilled (Some (match storage_match (caches w) (url request) with
                            | Some stored => stored
                            | None => offline_response
                            end)),
           log_fetches w [request])
      end
    else
      match storage_match (caches w) (url request) with
      | Some r => (Fulfilled (Some r), w)
      | None =>
          match network w request with
          | Some r =>
              (Fulfilled (Some r),
               set_pending (log_fetches w [request])
                 (pending w
                  ++ [OpenThenPut STATIC_CACHE_NAME (url request) r]))
          | None =>
              (Fulfilled (if String.eqb (destination request) "document"
                          then storage_match (caches w)
                                 (resolve_url w "/index.html")
                          else None),
               log_fetches w [request])
          end
      end.
Proof.
  unfold fetch_listener. destruct (isDataFile (url request)) eqn:Hp.
  - unfold data_policy, catch_, then_, fetch.
    destruct (network w request) as [r|]; [reflexivity|].
    unfold caches_match, resolve. simpl.
    destruct (storage_match (caches w) (url request)); reflexivity.
  - unfold static_policy, catch_, then_, caches_match.
    destruct (storage_match (caches w) (url request)) as [r|]; [reflexivity|].
    unfold fetch. destruct (network w request) as [r|]; [reflexivity|].
    destruct (String.eqb (destination request) "document"); reflexivity.
Qed.

(** X1.  The promise the fetch listener hands to respondWith is never
    rejected, and for a data file it is always fulfilled with a response:
    whatever the store and the network, the page's fetch of a data file
    does not fail. *)
Theorem fetch_listener_never_rejects (w : World) (request : Request) :
  (exists answer, fst (fetch_listener request w) = Fulfilled answer)
  /\ (isDataFile (url request) = true ->
      exists response,
        respondWith (fst (fetch_listener request w)) = Fulfilled response).
Proof.
  rewrite fetch_listener_run. split.
  - destruct (isDataFile (url request)).
    + destruct (network w request); eexists; reflexivity.
    + destruct (storage_match (caches w) (url request));
        [eexists; reflexivity|].
      destruct (network w request); eexists; reflexivity.
  - intros ->. destruct (network w request); eexists; reflexivity.
Qed.

Lemma fetch_listener_never_rejects_witness :
  exists response,
    respondWith (fst (fetch_listener (get "/data/jokes.json" "?_t=7" "")
                                     shadowed_world))
    = Fulfilled response.
Proof.
  apply (fetch_listener_never_rejects shadowed_world
           (get "/data/jokes.json" "?_t=7" "")).
  reflexivity.
Defined.

(** X2.  A fetch event never changes the store by itself, never writes on
    the console and never touches the lifecycle flags.  It issues at most
    one network request, the event's own, and starts at most one detached
    write: of the response the network gave, under the request's URL, into
    the generation of the policy that handled the request. *)
Theorem fetch_listener_footprint (w : World) (request : Request) :
  let w' := snd (fetch_listener request w) in
  caches w' = caches w
  /\ console w' = console w
  /\ skip_waiting w' = skip_waiting w
  /\ clients_claimed w' = clients_claimed w
  /\ (fetched w' = fetched w /\ pending w' = pending w
      \/ fetched w' = fetched w ++ [request]
         /\ (pending w' = pending w
             \/ exists r,
                  network w request = Some r
                  /\ pending w'
                     = pending w ++ [OpenThenPut (home (url request))
                                                 (url request) r])).
Proof.
  rewrite fetch_listener_run. unfold home.
  destruct (isDataFile (url request)).
  - destruct (network w request) as [r|] eqn:Hn; simpl.
    + repeat split. right. split; [reflexivity|]. right. exists r. auto.
    + repeat split. right. split; [reflexivity|]. left. reflexivity.
  - destruct (storage_match (caches w) (url request)); simpl.
    + repeat split. left. split; reflexivity.
    + destruct (network w request) as [r|] eqn:Hn; simpl.
      * repeat split. right. split; [reflexivity|]. right. exists r. auto.
      * repeat split. right. split; [reflexivity|]. left. reflexivity.
Qed.

(** *** What a detached write changes *)

Lemma generation_app_other (s1 s2 : CacheStorage) (n : string) :
  generation s2 n = None ->
  generation (s1 ++ s2) n = generation s1 n.
Proof.
  intros H. induction s1 as [|[m c] s1 IH]; simpl; [exact H|].
  destruct (String.eqb m n); [reflexivity | exact IH].
Qed.

Lemma generation_open_other (s : CacheStorage) (name n : string) :
  n <> name ->
  generation (storage_open s name) n = generation s n.
Proof.
  intros Hn. unfold storage_open. destruct (storage_has s name);
    [reflexivity|].
  apply generation_app_other. simpl.
  destruct (String.eqb name n) eqn:E; [|reflexivity].
  apply String.eqb_eq in E. congruence.
Qed.

Lemma generation_update_other (s : CacheStorage) (name n : string)
    (f : Cache -> Cache) :
  n <> name ->
  generation (storage_update s name f) n = generation s n.
Proof.
  intros Hn. induction s as [|[m c] s IH]; simpl; [reflexivity|].
  destruct (String.eqb m name) eqn:E; simpl.
  - apply String.eqb_eq in E. subst m.
    destruct (String.eqb name n) eqn:E'; [|exact IH].
    apply String.eqb_eq in E'. congruence.
  - destruct (String.eqb m n); [reflexivity | exact IH].
Qed.

Lemma cache_remove_absent (c : Cache) (k : URL) :
  cache_match c k = None ->
  filter (fun e => negb (URL_eqb (fst e) k)) c = c.
Proof.
  induction c as [|[k0 r0] c IH]; simpl; [reflexivity|].
  destruct (URL_eqb k0 k); [discriminate|]. intros H. simpl.
  rewrite (IH H). reflexivity.
Qed.

Lemma storage_match_update_frame (s : CacheStorage) (name : string)
    (f : Cache -> Cache) (k : URL) :
  (forall c, cache_match (f c) k = cache_match c k) ->
  storage_match (storage_update s name f) k = storage_match s k.
Proof.
  intros Hf. induction s as [|[n c] s IH]; simpl; [reflexivity|].
  destruct (String.eqb n name); simpl; rewrite ?Hf, IH; reflexivity.
Qed.

Lemma storage_match_open (s : CacheStorage) (name : string) (k : URL) :
  storage_match (storage_open s name) k = storage_match s k.
Proof.
  unfold storage_open. destruct (storage_has s name); [reflexivity|].
  rewrite storage_match_app. simpl.
  destruct (storage_match s k); reflexivity.
Qed.

(** The store once the write started by a fetch event has run. *)
Lemma fetch_then_settle_caches
    (w : World) (request : Request) (r : Response) :
  network w request = Some r ->
  pending w = [] ->
  (isDataFile (url request) = false ->
   storage_match (caches w) (url request) = None) ->
  caches (settle_pending (snd (fetch_listener request w)))
  = if partial r
    then storage_open (caches w) (home (url request))
    else storage_update (storage_open (caches w) (home (url request)))
           (home (url request)) (fun c => cache_put c (url request) r).
Proof.
  intros Hn Hp Hm. rewrite fetch_listener_run. unfold home.
  destruct (isDataFile (url request)).
  - rewrite Hn, Hp. unfold settle_pending.
    cbn [snd app pending set_pending run_tasks]. rewrite run_task_run.
    destruct (partial r); reflexivity.
  - rewrite (Hm eq_refl), Hn, Hp. unfold settle_pending.
    cbn [snd app pending set_pending run_tasks]. rewrite run_task_run.
    destruct (partial r); reflexivity.
Qed.

(** X3.  When the network answers a request (a data file, or a static
    request that missed the store) with a response that is not a 206, the
    write it starts replaces the entry stored under that very URL in the
    policy's generation and keeps every other entry: a URL that was not
    stored yet makes the generation one entry longer.  A 206 response is
    refused by the put and the generation keeps exactly the entries it
    had.  Nothing is ever evicted. *)
Theorem fetch_write_replaces_or_appends
    (w : World) (request : Request) (r : Response) :
  network w request = Some r ->
  pending w = [] ->
  (isDataFile (url request) = false ->
   storage_match (caches w) (url request) = None) ->
  let before := entries (caches w) (home (url request)) in
  let after :=
    entries (caches (settle_pending (snd (fetch_listener request w))))
            (home (url request)) in
  (status r <> 206%Z ->
   after = filter (fun e => negb (URL_eqb (fst e) (url request))) before
           ++ [(url request, r)]
   /\ (cache_match before (url request) = None ->
       after = before ++ [(url request, r)]))
  /\ (status r = 206%Z -> after = before).
Proof.
  intros Hn Hp Hm. cbv zeta.
  rewrite (fetch_then_settle_caches w request r Hn Hp Hm). split.
  - intros Hs. apply partial_status in Hs. rewrite Hs.
    assert (E : entries
                  (storage_update
                     (storage_open (caches w) (home (url request)))
                     (home (url request))
                     (fun c => cache_put c (url request) r))
                  (home (url request))
                = cache_put (entries (caches w) (home (url request)))
                            (url request) r).
    { unfold entries at 1. rewrite generation_update, generation_open_eq.
      reflexivity. }
    rewrite E. unfold cache_put. split; [reflexivity|].
    intros Hb. rewrite (cache_remove_absent _ _ Hb). reflexivity.
  - intros Hs. unfold partial. rewrite Hs. cbn [Z.eqb Pos.eqb].
    unfold entries at 1. rewrite generation_open_eq. reflexivity.
Qed.

(** X3, witness: a second data request, stamped with another [_t], adds a
    second entry to the data generation. *)
Lemma fetch_write_replaces_or_appends_witness :
  let w1 := settle_pending
              (snd (fetch_listener (get "/data/videos.json" "?_t=1" "")
                                   (fresh_world online))) in
  entries (caches (settle_pending
                     (snd (fetch_listener (get "/data/videos.json" "?_t=2" "")
                                          w1))))
          CACHE_NAME
  = entries (caches w1) CACHE_NAME
    ++ [(mkURL site "/data/videos.json" "?_t=2",
         mkResponse 200 "/data/videos.json?_t=2")].
Proof.
  cbv zeta.
  apply (fetch_write_replaces_or_appends
           (settle_pending
              (snd (fetch_listener (get "/data/videos.json" "?_t=1" "")
                                   (fresh_world online))))
           (get "/data/videos.json" "?_t=2" "")
           (mkResponse 200 "/data/videos.json?_t=2")).
  - reflexivity.
  - reflexivity.
  - intros H. discriminate H.
  - discriminate.
  - reflexivity.
Defined.

(** X4.  The write started by a fetch event changes what the store answers
    for the request's URL only: for every other URL, the lookup across the
    store and the lookup in each generation give what they gave before. *)
Theorem fetch_write_leaves_other_urls
    (w : World) (request : Request) (r : Response) (k : URL) :
  network w request = Some r ->
  pending w = [] ->
  (isDataFile (url request) = false ->
   storage_match (caches w) (url request) = None) ->
  k <> url request ->
  let w' := settle_pending (snd (fetch_listener request w)) in
  storage_match (caches w') k = storage_match (caches w) k
  /\ forall n, cache_match (entries (caches w') n) k
               = cache_match (entries (caches w) n) k.
Proof.
  intros Hn Hp Hm Hk. cbv zeta.
  rewrite (fetch_then_settle_caches w request r Hn Hp Hm).
  assert (Hf : forall c, cache_match (cache_put c (url request) r) k
                         = cache_match c k).
  { intros c. apply cache_match_put_other. apply URL_eqb_neq. congruence. }
  destruct (partial r).
  - split; [apply storage_match_open|].
    intros n. unfold entries.
    destruct (String.eqb n (home (url request))) eqn:E.
    + apply String.eqb_eq in E. subst n. rewrite generation_open_eq.
      reflexivity.
    + apply String.eqb_neq in E.
      rewrite generation_open_other by exact E. reflexivity.
  - split.
    + rewrite storage_match_update_frame by exact Hf.
      apply storage_match_open.
    + intros n. unfold entries.
      destruct (String.eqb n (home (url request))) eqn:E.
      * apply String.eqb_eq in E. subst n.
        rewrite generation_update, generation_open_eq. simpl. rewrite Hf.
        reflexivity.
      * apply String.eqb_neq in E.
        rewrite generation_update_other, generation_open_other by exact E.
        reflexivity.
Qed.

Lemma fetch_write_leaves_other_urls_witness :
  storage_match
    (caches (settle_pending
               (snd (fetch_listener (get "/data/videos.json" "?_t=2" "")
                                    shadowed_world))))
    (mkURL site "/styles.css" "")
  = storage_match (caches shadowed_world) (mkURL site "/styles.css" "").
Proof.
  apply (fetch_write_leaves_other_urls shadowed_world
           (get "/data/videos.json" "?_t=2" "")
           (mkResponse 200 "/data/videos.json?_t=2")
           (mkURL site "/styles.css" "")).
  - reflexivity.
  - reflexivity.
  - intros H. discriminate H.
  - intros H. discriminate H.
Defined.

(* ================================================================== *)
(** ** Further properties of the install and activate listeners *)

Lemma fetch_all_Forall2 (net : Request -> option Response)
    (rs : list Request) :
  forall es,
    fetch_all net rs = Some es ->
    Forall2 (fun rq e => fst e = url rq /\ net rq = Some (snd e)) rs es.
Proof.
  induction rs as [|rq rs IH]; simpl; intros es H.
  - injection H as <-. constructor.
  - destruct (net rq) as [r|] eqn:Hr; [|discriminate H].
    destruct (ok r && negb (partial r)); [|discriminate H].
    destruct (fetch_all net rs) as [es'|]; [|discriminate H].
    injection H as <-. constructor; [split; [reflexivity | exact Hr]|].
    apply IH. reflexivity.
Qed.

Lemma put_all_fresh (es : list (URL * Response)) :
  NoDup (map fst es) ->
  forall c,
    (forall e, In e es -> cache_match c (fst e) = None) ->
    put_all c es = c ++ es.
Proof.
  unfold put_all. induction es as [|[k r] es IH]; intros Hnd c Hc; simpl.
  - symmetry. apply app_nil_r.
  - simpl in Hnd. inversion Hnd as [|? ? Hk Hnd']; subst.
    assert (E : cache_put c k r = c ++ [(k, r)]).
    { unfold cache_put. rewrite cache_remove_absent; [reflexivity|].
      apply (Hc (k, r)). left. reflexivity. }
    rewrite E, IH.
    + rewrite <- app_assoc. reflexivity.
    + exact Hnd'.
    + intros e He. rewrite cache_match_app, (Hc e (or_intror He)). simpl.
      destruct (URL_eqb k (fst e)) eqn:Ek; [|reflexivity].
      apply URL_eqb_eq in Ek. subst k. exfalso. apply Hk.
      apply in_map. exact He.
Qed.

Lemma put_all_frame (es : list (URL * Response)) (k : URL) :
  (forall e, In e es -> fst e <> k) ->
  forall c, cache_match (put_all c es) k = cache_match c k.
Proof.
  unfold put_all. induction es as [|[k0 r0] es IH]; intros H c; simpl.
  - reflexivity.
  - rewrite IH.
    + apply cache_match_put_other. apply URL_eqb_neq.
      apply (H (k0, r0)). left. reflexivity.
    + intros e He. apply H. right. exact He.
Qed.

Lemma urlsToCache_NoDup : NoDup urlsToCache.
Proof.
  unfold urlsToCache.
  repeat (constructor; [not_listed|]). constructor.
Qed.

Lemma Forall2_map_fst_url (net : Request -> option Response)
    (rs : list Request) (es : list (URL * Response)) :
  Forall2 (fun rq e => fst e = url rq /\ net rq = Some (snd e)) rs es ->
  map fst es = map url rs.
Proof.
  induction 1 as [|rq e rs es [H1 _] _ IH]; simpl; [reflexivity|].
  rewrite H1, IH. reflexivity.
Qed.

Lemma manifest_urls_NoDup (w : World) :
  NoDup (map url (map (manifest_request w) urlsToCache)).
Proof.
  rewrite map_map. apply NoDup_map_NoDup_ForallPairs.
  - intros p q _ _ H. unfold manifest_request, resolve_url in H. simpl in H.
    injection H as ->. reflexivity.
  - apply urlsToCache_NoDup.
Qed.

Lemma storage_keys_update (s : CacheStorage) (name : string)
    (f : Cache -> Cache) :
  storage_keys (storage_update s name f) = storage_keys s.
Proof.
  unfold storage_keys, storage_update. rewrite map_map. apply map_ext.
  intros [n c]. simpl. destruct (String.eqb n name); reflexivity.
Qed.

Lemma storage_has_In (s : CacheStorage) (name : string) :
  storage_has s name = true <-> In name (storage_keys s).
Proof.
  unfold storage_has, storage_keys. rewrite existsb_exists, in_map_iff.
  split; intros [e [H1 H2]]; exists e.
  - apply String.eqb_eq in H2. auto.
  - split; [exact H2 | apply String.eqb_eq; exact H1].
Qed.

Lemma storage_keys_open (s : CacheStorage) (name n : string) :
  In n (storage_keys (storage_open s name))
  <-> In n (storage_keys s) \/ n = name.
Proof.
  unfold storage_open. destruct (storage_has s name) eqn:H.
  - apply storage_has_In in H. split; [auto|].
    intros [Hn | ->]; assumption.
  - unfold storage_keys. rewrite map_app, in_app_iff. simpl.
    split.
    + intros [Hn | [<- | []]]; auto.
    + intros [Hn | ->]; auto.
Qed.

(** The store after the install listener. *)
Lemma install_listener_caches (w : World) :
  caches (snd (install_listener w))
  = match fetch_all (network w) (map (manifest_request w) urlsToCache) with
    | Some es =>
        storage_update (storage_open (caches w) STATIC_CACHE_NAME)
          STATIC_CACHE_NAME (fun c => put_all c es)
    | None => storage_open (caches w) STATIC_CACHE_NAME
    end.
Proof.
  rewrite install_listener_run. cbv zeta.
  destruct (fetch_all (network w) (map (manifest_request w) urlsToCache));
    reflexivity.
Qed.

(** X5.  On an origin where the static generation does not exist yet, an
    install whose fetches are all answered with an ok status other than
    206 leaves a
    static generation made of exactly one entry per manifest path, in the
    order of the manifest: the URL of the path, with the response the
    network gave for it. *)
Theorem install_populates_exactly_manifest (w : World) :
  generation (caches w) STATIC_CACHE_NAME = None ->
  (forall p, In p urlsToCache ->
             exists a, network w (manifest_request w p) = Some a
                       /\ ok a = true /\ status a <> 206%Z) ->
  Forall2 (fun p e => fst e = resolve_url w p
                      /\ network w (manifest_request w p) = Some (snd e))
          urlsToCache
          (entries (caches (snd (install_listener w))) STATIC_CACHE_NAME).
Proof.
  intros Habs Hall.
  destruct (fetch_all_success (network w)
              (map (manifest_request w) urlsToCache)) as [es [Hes _]].
  { intros rq Hrq. apply in_map_iff in Hrq. destruct Hrq as [q [<- Hq]].
    apply Hall. exact Hq. }
  pose proof (fetch_all_Forall2 _ _ _ Hes) as HF.
  rewrite install_listener_caches, Hes. unfold entries at 1.
  rewrite generation_update, generation_open_eq. unfold entries.
  rewrite Habs. simpl.
  rewrite put_all_fresh.
  - simpl. clear Hes Hall. revert es HF.
    induction urlsToCache as [|p ps IH]; intros es HF; simpl in HF.
    + inversion HF. constructor.
    + inversion HF as [|? e ? es' [H1 H2] HF']; subst.
      constructor; [split; assumption | apply IH; exact HF'].
  - rewrite (Forall2_map_fst_url _ _ _ HF). apply manifest_urls_NoDup.
  - intros e _. reflexivity.
Qed.

Lemma install_populates_exactly_manifest_witness :
  Forall2 (fun p e => fst e = resolve_url (fresh_world online) p
                      /\ online (manifest_request (fresh_world online) p)
                         = Some (snd e))
          urlsToCache
          (entries (caches (snd (install_listener (fresh_world online))))
                   STATIC_CACHE_NAME).
Proof.
  apply (install_populates_exactly_manifest (fresh_world online)).
  - reflexivity.
  - intros p _. eexists.
    split; [reflexivity | split; [reflexivity | discriminate]].
Defined.

(** X6.  Whether its population succeeds or fails, install deletes no
    cache and leaves every cache other than the static generation as it
    was; the names present afterwards are the names present before plus
    the static generation's. *)
Theorem install_leaves_other_generations (w : World) :
  let w' := snd (install_listener w) in
  (forall n, In n (storage_keys (caches w'))
             <-> In n (storage_keys (caches w)) \/ n = STATIC_CACHE_NAME)
  /\ (forall n, n <> STATIC_CACHE_NAME ->
                generation (caches w') n = generation (caches w) n).
Proof.
  cbv zeta. rewrite install_listener_caches.
  destruct (fetch_all (network w) (map (manifest_request w) urlsToCache)).
  - split.
    + intros n. rewrite storage_keys_update. apply storage_keys_open.
    + intros n Hn. rewrite generation_update_other, generation_open_other
        by exact Hn. reflexivity.
  - split.
    + intros n. apply storage_keys_open.
    + intros n Hn. apply generation_open_other. exact Hn.
Qed.

Lemma install_leaves_other_generations_witness :
  generation (caches (snd (install_listener shadowed_world))) CACHE_NAME
  = generation (caches shadowed_world) CACHE_NAME.
Proof.
  apply (install_leaves_other_generations shadowed_world).
  intros H. discriminate H.
Defined.

(** X7.  Install does not clear the static generation it finds: an entry
    stored there under a URL that is not a manifest URL (written by the
    static policy at run time) is still there after a new install, whether
    the population succeeds or fails. *)
Theorem install_keeps_runtime_entries (w : World) (k : URL) :
  (forall p, In p urlsToCache -> k <> resolve_url w p) ->
  cache_match (entries (caches (snd (install_listener w))) STATIC_CACHE_NAME) k
  = cache_match (entries (caches w) STATIC_CACHE_NAME) k.
Proof.
  intros Hk. rewrite install_listener_caches.
  destruct (fetch_all (network w) (map (manifest_request w) urlsToCache))
    as [es|] eqn:Hes.
  - unfold entries at 1. rewrite generation_update, generation_open_eq.
    simpl. apply put_all_frame.
    pose proof (fetch_all_Forall2 _ _ _ Hes) as HF.
    pose proof (Forall2_map_fst_url _ _ _ HF) as Hm.
    intros e He Hek. apply (in_map fst) in He. rewrite Hm, map_map in He.
    apply in_map_iff in He. destruct He as [p [Hp Hin]].
    apply (Hk p Hin). rewrite <- Hek, <- Hp. reflexivity.
  - unfold entries at 1. rewrite generation_open_eq. reflexivity.
Qed.

Lemma install_keeps_runtime_entries_witness :
  cache_match
    (entries
       (caches (snd (install_listener
          (mkWorld site online
             [(STATIC_CACHE_NAME,
               [(mkURL site "/poster.png" "", mkResponse 200 "png")])]
             [] [] [] true true))))
       STATIC_CACHE_NAME)
    (mkURL site "/poster.png" "")
  = Some (mkResponse 200 "png").
Proof.
  apply (install_keeps_runtime_entries
           (mkWorld site online
              [(STATIC_CACHE_NAME,
                [(mkURL site "/poster.png" "", mkResponse 200 "png")])]
              [] [] [] true true)
           (mkURL site "/poster.png" "")).
  intros p Hp. simpl in Hp.
  repeat (destruct Hp as [<-|Hp]; [intros H; discriminate H|]).
  contradiction.
Defined.

(** X8.  The activate listener claims the clients and does nothing else
    outside the store: no network request, no console line, no detached
    write.  On a store that holds no cache but current generations it
    changes nothing at all in the store. *)
Theorem activate_footprint (w : World) :
  let w' := snd (activate_listener w) in
  (clients_claimed w' = true
   /\ fetched w' = fetched w
   /\ console w' = console w
   /\ pending w' = pending w
   /\ skip_waiting w' = skip_waiting w)
  /\ ((forall n, In n (storage_keys (caches w)) ->
                 n = CACHE_NAME \/ n = STATIC_CACHE_NAME) ->
      caches w' = caches w).
Proof.
  destruct (activate_listener_run w) as [l Hl]. rewrite Hl. simpl.
  split; [repeat split|]. intros H.
  apply forallb_filter_id. apply forallb_forall. intros e He.
  apply current_iff. apply H. unfold storage_keys. apply in_map. exact He.
Qed.

Lemma activate_footprint_witness :
  caches (snd (activate_listener shadowed_world)) = caches shadowed_world.
Proof.
  apply (activate_footprint shadowed_world).
  simpl. intros n [<- | [<- | []]]; auto.
Defined.

(** What the store answers for a manifest URL after a successful install
    followed by activate. *)
Lemma install_activate_serves_manifest (w : World) (p : string)
    (r : Response) :
  In p urlsToCache ->
  (forall q, In q urlsToCache ->
             exists a, network w (manifest_request w q) = Some a
                       /\ ok a = true /\ status a <> 206%Z) ->
  network w (manifest_request w p) = Some r ->
  storage_match (called CACHE_NAME (caches w)) (resolve_url w p) = None ->
  storage_match (caches (snd (activate_listener (snd (install_listener w)))))
                (resolve_url w p)
  = Some r.
Proof.
  intros Hp Hall Hr Hd.
  destruct (fetch_all_success (network w)
              (map (manifest_request w) urlsToCache)) as [es [Hes Hin]].
  { intros rq Hrq. apply in_map_iff in Hrq. destruct Hrq as [q [<- Hq]].
    apply Hall. exact Hq. }
  rewrite (install_activate_run w es Hes).
  apply storage_match_static_open_kept; [| exact Hd].
  intros c. apply put_all_match.
  - intros r' Hr'. apply Hin in Hr'. destruct Hr' as [rq [Hrq [Hk Ha]]].
    apply in_map_iff in Hrq. destruct Hrq as [q [<- Hq]].
    unfold manifest_request, resolve_url in Hk. simpl in Hk.
    injection Hk as ->. rewrite Hr in Ha. injection Ha as ->. reflexivity.
  - left. apply Hin. exists (manifest_request w p). split.
    + apply in_map. exact Hp.
    + split; [reflexivity | exact Hr].
Qed.

Lemma install_activate_origin (w : World) :
  location_origin (snd (activate_listener (snd (install_listener w))))
  = location_origin w.
Proof.
  destruct (activate_listener_run (snd (install_listener w))) as [l Hl].
  rewrite Hl. simpl. rewrite install_listener_run. cbv zeta.
  destruct (fetch_all (network w) (map (manifest_request w) urlsToCache));
    reflexivity.
Qed.

(** X9.  After an install whose population succeeded (every manifest
    fetch answered with an ok status other than 206), followed by
    activate, a navigation (destination document) to a page that is not a
    data file always gets a page when the network is down: the response
    stored under its URL when there is one, and otherwise the root document
    /index.html as it was fetched at install.  The store found by the
    install may hold any caches of earlier revisions; only the data
    generation must not hold /index.html. *)
Theorem offline_navigation_gets_shell
    (w : World) (request : Request) (root : Response)
    (net' : Request -> option Response) :
  (forall q, In q urlsToCache ->
             exists a, network w (manifest_request w q) = Some a
                       /\ ok a = true /\ status a <> 206%Z) ->
  network w (manifest_request w "/index.html") = Some root ->
  storage_match (called CACHE_NAME (caches w))
                (resolve_url w "/index.html") = None ->
  ~ In (pathname (url request)) DATA_FILES ->
  destination request = "document" ->
  net' request = None ->
  let w2 := set_network
              (snd (activate_listener (snd (install_listener w)))) net' in
  respondWith (fst (fetch_listener request w2))
  = Fulfilled (match storage_match (caches w2) (url request) with
               | Some stored => stored
               | None => root
               end).
Proof.
  intros Hall Hroot Hd Hp Hdoc Hoff. cbv zeta.
  apply isDataFile_not_In in Hp.
  assert (Hidx : storage_match
                   (caches (set_network
                      (snd (activate_listener (snd (install_listener w))))
                      net'))
                   (resolve_url
                      (set_network
                         (snd (activate_listener (snd (install_listener w))))
                         net')
                      "/index.html")
                 = Some root).
  { unfold resolve_url. simpl location_origin.
    rewrite install_activate_origin.
    apply (install_activate_serves_manifest w "/index.html" root);
      try assumption.
    simpl. tauto. }
  rewrite fetch_listener_run, Hp.
  destruct (storage_match _ (url request)) as [stored|]; [reflexivity|].
  simpl network. rewrite Hoff, Hdoc. simpl String.eqb. cbv iota.
  rewrite Hidx. reflexivity.
Qed.

Lemma offline_navigation_gets_shell_witness :
  respondWith
    (fst (fetch_listener (get "/characters" "?tab=characters" "document")
            (set_network
               (snd (activate_listener
                       (snd (install_listener (fresh_world online)))))
               offline)))
  = Fulfilled (mkResponse 200 "/index.html").
Proof.
  apply (offline_navigation_gets_shell (fresh_world online)
           (get "/characters" "?tab=characters" "document")
           (mkResponse 200 "/index.html") offline).
  - intros q _. eexists.
    split; [reflexivity | split; [reflexivity | discriminate]].
  - reflexivity.
  - reflexivity.
  - not_listed.
  - reflexivity.
  - reflexivity.
Defined.

(* ================================================================== *)
(** ** An invariant of the store: one generation per policy *)

Lemma home_current (k : URL) :
  home k = CACHE_NAME \/ home k = STATIC_CACHE_NAME.
Proof. unfold home. destruct (isDataFile k); auto. Qed.

Lemma cache_put_In (c : Cache) (k : URL) (r : Response) (e : URL * Response) :
  In e (cache_put c k r) -> In e c \/ e = (k, r).
Proof.
  unfold cache_put. rewrite in_app_iff, filter_In. simpl.
  intros [[H _] | [H | []]]; auto.
Qed.

Lemma put_all_In (es : list (URL * Response)) (e : URL * Response) :
  forall c, In e (put_all c es) -> In e c \/ In e es.
Proof.
  unfold put_all. induction es as [|[k r] es IH]; intros c H; simpl in *.
  - auto.
  - apply IH in H. destruct H as [H | H]; [|auto].
    apply cache_put_In in H. destruct H as [H | H]; auto.
Qed.

Lemma NoDup_keys_filter (p : string * Cache -> bool) (s : CacheStorage) :
  NoDup (storage_keys s) -> NoDup (storage_keys (filter p s)).
Proof.
  unfold storage_keys. induction s as [|e s IH]; simpl; intros H.
  - constructor.
  - inversion H as [|? ? Hn Hs]; subst. destruct (p e); simpl.
    + constructor; [|apply IH, Hs]. intros Hin. apply Hn.
      apply in_map_iff in Hin. destruct Hin as [e' [E He']].
      apply filter_In in He'. rewrite <- E. apply in_map. tauto.
    + apply IH, Hs.
Qed.

Lemma sorted_store_filter (p : string * Cache -> bool) (s : CacheStorage) :
  sorted_store s -> sorted_store (filter p s).
Proof.
  intros [Hnd H]. split; [apply NoDup_keys_filter, Hnd|].
  intros n c Hin. apply filter_In in Hin. apply H. tauto.
Qed.

Lemma sorted_store_open (s : CacheStorage) (name : string) :
  name = CACHE_NAME \/ name = STATIC_CACHE_NAME ->
  sorted_store s -> sorted_store (storage_open s name).
Proof.
  intros Hname [Hnd H]. unfold storage_open.
  destruct (storage_has s name) eqn:Hh; [split; assumption|].
  split.
  - unfold storage_keys. rewrite map_app. simpl.
    apply NoDup_app; [exact Hnd | repeat constructor; intros [] |].
    intros n Hn [<- | []].
    apply storage_has_In in Hn. congruence.
  - intros n c Hin. apply in_app_iff in Hin. destruct Hin as [Hin | [E | []]].
    + apply H. exact Hin.
    + injection E as <- <-. split; [exact Hname | intros k r []].
Qed.

Lemma sorted_store_update (s : CacheStorage) (name : string)
    (f : Cache -> Cache) :
  (forall c e, In e (f c) -> In e c \/ home (fst e) = name) ->
  sorted_store s -> sorted_store (storage_update s name f).
Proof.
  intros Hf [Hnd H]. split; [rewrite storage_keys_update; exact Hnd|].
  intros n c Hin. unfold storage_update in Hin. apply in_map_iff in Hin.
  destruct Hin as [[m c0] [E Hin]]. simpl in E.
  destruct (H m c0 Hin) as [Hm Hc0].
  destruct (String.eqb m name) eqn:Em.
  - injection E as <- <-. split; [exact Hm|]. intros k r Hk.
    apply Hf in Hk. destruct Hk as [Hk | Hk].
    + apply (Hc0 k r Hk).
    + simpl in Hk. apply String.eqb_eq in Em. congruence.
  - injection E as <- <-. split; assumption.
Qed.

Lemma run_task_sorted (t : Task) (w : World) :
  (forall n k r, t = OpenThenPut n k r -> home k = n) ->
  sorted_store (caches w) ->
  sorted_store (caches (snd (run_task t w)))
  /\ pending (snd (run_task t w)) = pending w.
Proof.
  destruct t as [n k r]. intros Ht Hs. rewrite run_task_run.
  pose proof (Ht n k r eq_refl) as Hk.
  assert (Ho : sorted_store (storage_open (caches w) n)).
  { apply sorted_store_open; [|exact Hs]. rewrite <- Hk. apply home_current. }
  destruct (partial r); (split; [|reflexivity]).
  - exact Ho.
  - apply sorted_store_update; [|exact Ho].
    intros c e He. apply cache_put_In in He. destruct He as [He | ->]; auto.
Qed.

Lemma run_tasks_sorted (ts : list Task) :
  forall w,
    sorted_tasks ts ->
    sorted_store (caches w) ->
    sorted_store (caches (run_tasks ts w))
    /\ pending (run_tasks ts w) = pending w.
Proof.
  induction ts as [|t ts IH]; intros w Hts Hs; simpl.
  - split; [exact Hs | reflexivity].
  - destruct (run_task_sorted t w) as [H1 H2].
    + intros n k r ->. apply (Hts n k r). left. reflexivity.
    + exact Hs.
    + destruct (IH (snd (run_task t w))) as [H3 H4].
      * intros n k r Hin. apply (Hts n k r). right. exact Hin.
      * exact H1.
      * split; [exact H3 | congruence].
Qed.

Lemma install_partitioned (w : World) :
  partitioned w -> partitioned (snd (install_listener w)).
Proof.
  intros [Hs Ht]. split.
  - rewrite install_listener_caches.
    destruct (fetch_all (network w) (map (manifest_request w) urlsToCache))
      as [es|] eqn:Hes.
    + apply sorted_store_update;
        [|apply sorted_store_open; [right; reflexivity | exact Hs]].
      intros c e He. apply put_all_In in He. destruct He as [He | He]; auto.
      right. pose proof (fetch_all_Forall2 _ _ _ Hes) as HF.
      pose proof (Forall2_map_fst_url _ _ _ HF) as Hm.
      apply (in_map fst) in He. rewrite Hm, map_map in He.
      apply in_map_iff in He. destruct He as [p [Hp Hin]].
      rewrite <- Hp. unfold home, manifest_request. simpl url.
      rewrite (manifest_paths_static w p Hin). reflexivity.
    + apply sorted_store_open; [right; reflexivity | exact Hs].
  - rewrite install_listener_run. cbv zeta.
    destruct (fetch_all (network w) (map (manifest_request w) urlsToCache));
      exact Ht.
Qed.

Lemma activate_partitioned (w : World) :
  partitioned w -> partitioned (snd (activate_listener w)).
Proof.
  intros [Hs Ht]. destruct (activate_listener_run w) as [l Hl]. rewrite Hl.
  split; [apply sorted_store_filter; exact Hs | exact Ht].
Qed.

Lemma fetch_partitioned (w : World) (request : Request) :
  partitioned w -> partitioned (snd (fetch_listener request w)).
Proof.
  intros [Hs Ht]. rewrite fetch_listener_run.
  assert (Hadd : forall name r,
            name = home (url request) ->
            sorted_tasks (pending w ++ [OpenThenPut name (url request) r])).
  { intros name r -> n k r' Hin. apply in_app_iff in Hin.
    destruct Hin as [Hin | [E | []]]; [apply (Ht n k r' Hin)|].
    injection E as <- <- <-. reflexivity. }
  unfold home in Hadd.
  destruct (isDataFile (url request)).
  - destruct (network w request); split; try assumption.
    apply Hadd. reflexivity.
  - destruct (storage_match (caches w) (url request));
      [split; assumption|].
    destruct (network w request); split; try assumption.
    apply Hadd. reflexivity.
Qed.

Lemma settle_partitioned (w : World) :
  partitioned w -> partitioned (settle_pending w).
Proof.
  intros [Hs Ht]. unfold settle_pending.
  destruct (run_tasks_sorted (pending w) (set_pending w []) Ht Hs) as [H1 H2].
  split; [exact H1|]. rewrite H2. intros n k r [].
Qed.

Lemma settle_one_partitioned (i : nat) (w : World) :
  partitioned w -> partitioned (settle_one i w).
Proof.
  intros [Hs Ht]. unfold settle_one.
  destruct (nth_error (pending w) i) as [t|] eqn:Hi; [|split; assumption].
  destruct (run_task_sorted t
              (set_pending w (firstn i (pending w)
                              ++ skipn (S i) (pending w)))) as [H1 H2].
  - intros n k r ->. apply (Ht n k r). apply (nth_error_In _ _ Hi).
  - exact Hs.
  - split; [exact H1|]. rewrite H2. intros n k r Hin. simpl in Hin.
    apply (Ht n k r). apply in_app_iff in Hin.
    destruct Hin as [Hin | Hin].
    + rewrite <- (firstn_skipn i (pending w)). apply in_app_iff. auto.
    + rewrite <- (firstn_skipn (S i) (pending w)). apply in_app_iff. auto.
Qed.

Lemma dispatch_partitioned (e : Event) (w : World) :
  partitioned w -> partitioned (dispatch e w).
Proof.
  destruct e; simpl.
  - apply install_partitioned.
  - apply activate_partitioned.
  - apply fetch_partitioned.
  - apply settle_partitioned.
  - apply settle_one_partitioned.
  - intros H. exact H.
Qed.

Lemma run_partitioned_aux (es : list Event) :
  forall w, partitioned w -> partitioned (run es w).
Proof.
  unfold run. induction es as [|e es IH]; intros w H; simpl.
  - exact H.
  - apply IH. apply dispatch_partitioned. exact H.
Qed.

Lemma sorted_cache_miss (c : Cache) (n : string) (k : URL) :
  (forall k' r, In (k', r) c -> home k' = n) ->
  home k <> n ->
  cache_match c k = None.
Proof.
  intros Hc Hk. induction c as [|[k0 r0] c IH]; simpl; [reflexivity|].
  destruct (URL_eqb k0 k) eqn:E.
  - apply URL_eqb_eq in E. subst k0. exfalso. apply Hk.
    apply (Hc k r0). left. reflexivity.
  - apply IH. intros k' r H. apply (Hc k' r). right. exact H.
Qed.

Lemma sorted_store_lookup (s : CacheStorage) (k : URL) :
  sorted_store s ->
  storage_match s k = cache_match (entries s (home k)) k.
Proof.
  unfold entries. intros [Hnd H].
  induction s as [|[n c] s IH]; simpl; [reflexivity|].
  simpl in Hnd. inversion Hnd as [|? ? Hn Hnd']; subst.
  assert (Hs : forall m c', In (m, c') s ->
             (m = CACHE_NAME \/ m = STATIC_CACHE_NAME)
             /\ forall k' r, In (k', r) c' -> home k' = m).
  { intros m c' Hin. apply H. right. exact Hin. }
  destruct (String.eqb n (home k)) eqn:E.
  - apply String.eqb_eq in E. subst n.
    destruct (cache_match c k) eqn:Ec; [reflexivity|].
    assert (Hrest : forall s',
              (forall m c', In (m, c') s' ->
                 (m = CACHE_NAME \/ m = STATIC_CACHE_NAME)
                 /\ forall k' r, In (k', r) c' -> home k' = m) ->
              ~ In (home k) (storage_keys s') ->
              storage_match s' k = None).
    { induction s' as [|[m c'] s' IH']; simpl; intros Hs' Hn';
        [reflexivity|].
      rewrite (sorted_cache_miss c' m k).
      - apply IH'; [intros m' c'' Hin; apply Hs'; right; exact Hin | tauto].
      - apply (Hs' m c'). left. reflexivity.
      - intros E. apply Hn'. left. symmetry. exact E. }
    apply Hrest; assumption.
  - rewrite (sorted_cache_miss c n k).
    + apply IH; assumption.
    + apply (H n c). left. reflexivity.
    + apply String.eqb_neq in E. congruence.
Qed.

(** X10.  Every event keeps the store partitioned: starting from a
    partitioned world (an empty store with no write in flight is one),
    whatever sequence of install, activate and fetch events, completions of
    detached writes in any order and changes of the network follows, the
    store holds at most the two current generations, each once, every data
    file URL is stored in the data generation only and every other URL in
    the static generation only. *)
Theorem run_keeps_partition (es : list Event) (w : World) :
  partitioned w ->
  partitioned (run es w).
Proof.
  revert w. unfold run. induction es as [|e es IH]; intros w H; simpl.
  - exact H.
  - apply IH. apply dispatch_partitioned. exact H.
Qed.

Lemma run_keeps_partition_witness :
  partitioned
    (run [Install; Activate; Fetch (get "/data/jokes.json" "?_t=3" "");
          Fetch (get "/poster.png" "" "image"); SettleOne 1; Network offline;
          Fetch (get "/data/jokes.json" "?_t=4" ""); Settle]
         (fresh_world online)).
Proof.
  apply (run_keeps_partition
           [Install; Activate; Fetch (get "/data/jokes.json" "?_t=3" "");
            Fetch (get "/poster.png" "" "image"); SettleOne 1;
            Network offline;
            Fetch (get "/data/jokes.json" "?_t=4" ""); Settle]
           (fresh_world online)).
  split.
  - split; [constructor | intros n c []].
  - intros n k r [].
Defined.

(** X11.  On a worker whose store was empty when it started, the lookup
    across all caches that both policies use finds exactly what the
    generation of the request's own policy holds: after any sequence of
    events, a static request is answered from the static generation alone
    and the data fallback from the data generation alone. *)
Theorem lookup_confined_when_started_empty
    (es : list Event) (w : World) (k : URL) :
  caches w = [] ->
  pending w = [] ->
  storage_match (caches (run es w)) k
  = cache_match (entries (caches (run es w))
                         (if isDataFile k then CACHE_NAME
                          else STATIC_CACHE_NAME)) k.
Proof.
  intros Hc Hp. apply (sorted_store_lookup (caches (run es w)) k).
  apply run_partitioned_aux. split.
  - rewrite Hc. split; [constructor | intros n c []].
  - rewrite Hp. intros n k' r [].
Qed.

Lemma lookup_confined_when_started_empty_witness :
  storage_match
    (caches (run [Install; Activate; Fetch (get "/poster.png" "" "image");
                  Settle] (fresh_world online)))
    (mkURL site "/poster.png" "")
  = cache_match
      (entries
         (caches (run [Install; Activate;
                       Fetch (get "/poster.png" "" "image"); Settle]
                      (fresh_world online)))
         STATIC_CACHE_NAME)
      (mkURL site "/poster.png" "").
Proof.
  apply (lookup_confined_when_started_empty
           [Install; Activate; Fetch (get "/poster.png" "" "image"); Settle]
           (fresh_world online) (mkURL site "/poster.png" "")).
  - reflexivity.
  - reflexivity.
Defined.

(* ================================================================== *)
(** ** DataLoader.js *)

Import DataLoader.

(** *** The two maps *)

Lemma Map_get_set_same {V} (m : JsMap V) (k : string) (v : V) :
  Map_get (Map_set m k v) k = Some v.
Proof.
  induction m as [|[k0 v0] m IH]; simpl.
  - rewrite String.eqb_refl. reflexivity.
  - destruct (String.eqb k0 k) eqn:E; simpl; rewrite E; [reflexivity|exact IH].
Qed.

Lemma Map_get_set_other {V} (m : JsMap V) (k k' : string) (v : V) :
  k' <> k -> Map_get (Map_set m k v) k' = Map_get m k'.
Proof.
  intros Hk. induction m as [|[k0 v0] m IH]; simpl.
  - destruct (String.eqb k k') eqn:E; [|reflexivity].
    apply String.eqb_eq in E. congruence.
  - destruct (String.eqb k0 k) eqn:E; simpl.
    + apply String.eqb_eq in E. subst k0.
      destruct (String.eqb k k') eqn:E'; [|reflexivity].
      apply String.eqb_eq in E'. congruence.
    + rewrite IH. reflexivity.
Qed.

Lemma Map_has_set {V} (m : JsMap V) (k : string) (v : V) :
  Map_has (Map_set m k v) k = true.
Proof.
  unfold Map_has. induction m as [|[k0 v0] m IH]; simpl.
  - rewrite String.eqb_refl. reflexivity.
  - destruct (String.eqb k0 k) eqn:E; simpl; rewrite E; [reflexivity|exact IH].
Qed.

Lemma Map_keys_set {V} (m : JsMap V) (k : string) (v : V) :
  map fst (Map_set m k v)
  = if Map_has m k then map fst m else map fst m ++ [k].
Proof.
  unfold Map_has. induction m as [|[k0 v0] m IH]; simpl; [reflexivity|].
  destruct (String.eqb k0 k) eqn:E; simpl; [reflexivity|].
  rewrite IH. destruct (existsb _ m); reflexivity.
Qed.

Lemma Map_has_keys {V} (m : JsMap V) (k : string) :
  Map_has m k = true <-> In k (map fst m).
Proof.
  unfold Map_has. rewrite existsb_exists, in_map_iff.
  split; intros [e [H1 H2]]; exists e.
  - apply String.eqb_eq in H2. auto.
  - split; [exact H2 | apply String.eqb_eq; exact H1].
Qed.

Lemma Map_has_same_keys {V W} (m : JsMap V) (m' : JsMap W) (k : string) :
  map fst m = map fst m' -> Map_has m k = Map_has m' k.
Proof.
  intros H. destruct (Map_has m' k) eqn:E.
  - apply Map_has_keys. rewrite H. apply Map_has_keys. exact E.
  - destruct (Map_has m k) eqn:E'; [|reflexivity].
    apply Map_has_keys in E'. rewrite H in E'. apply Map_has_keys in E'.
    congruence.
Qed.

Lemma Map_keys_delete {V} (m : JsMap V) (k : string) :
  map fst (Map_delete m k)
  = filter (fun x => negb (String.eqb x k)) (map fst m).
Proof.
  unfold Map_delete. induction m as [|[k0 v0] m IH]; simpl; [reflexivity|].
  destruct (String.eqb k0 k); simpl; rewrite IH; reflexivity.
Qed.

Lemma Map_get_delete {V} (m : JsMap V) (k p : string) :
  Map_get (Map_delete m k) p
  = if String.eqb k p then None else Map_get m p.
Proof.
  unfold Map_delete. induction m as [|[k0 v0] m IH]; simpl.
  - destruct (String.eqb k p); reflexivity.
  - destruct (String.eqb k0 k) eqn:E; simpl.
    + apply String.eqb_eq in E. subst k0. rewrite IH.
      destruct (String.eqb k p); reflexivity.
    + rewrite IH. destruct (String.eqb k0 p) eqn:E'; [|reflexivity].
      apply String.eqb_eq in E'. subst k0.
      rewrite String.eqb_sym in E. rewrite E. reflexivity.
Qed.

Lemma NoDup_filter_keys (f : string -> bool) (l : list string) :
  NoDup l -> NoDup (filter f l).
Proof.
  induction l as [|x l IH]; simpl; intros H; [constructor|].
  inversion H as [|? ? Hx Hl]; subst. destruct (f x).
  - constructor; [|apply IH, Hl]. intros Hin. apply filter_In in Hin. tauto.
  - apply IH, Hl.
Qed.

Lemma expire_one_paired {Data : Type} (now : Z) (st : State Data) (e : string * Z) :
  paired st -> paired (expire_one now st e).
Proof.
  intros [Hnd Hk]. unfold expire_one. destruct e as [p t].
  destruct (now - t >=? CACHE_DURATION)%Z; [|split; assumption].
  split; simpl.
  - rewrite Map_keys_delete. apply NoDup_filter_keys. exact Hnd.
  - rewrite !Map_keys_delete, Hk. reflexivity.
Qed.

Lemma fold_expire_paired {Data : Type} (now : Z) (l : list (string * Z)) :
  forall st : State Data,
    paired st -> paired (fold_left (expire_one now) l st).
Proof.
  induction l as [|e l IH]; intros st H; simpl; [exact H|].
  apply IH. apply expire_one_paired. exact H.
Qed.

Lemma fold_expire_get {Data : Type} (now : Z) (l : list (string * Z))
    (p : string) :
  forall st : State Data,
    Map_get (cacheTimestamps (fold_left (expire_one now) l st)) p
    = (if existsb (fun e => String.eqb (fst e) p
                            && (now - snd e >=? CACHE_DURATION)%Z) l
       then None else Map_get (cacheTimestamps st) p)
    /\ Map_get (cache (fold_left (expire_one now) l st)) p
       = (if existsb (fun e => String.eqb (fst e) p
                               && (now - snd e >=? CACHE_DURATION)%Z) l
          then None else Map_get (cache st) p).
Proof.
  induction l as [|[k t] l IH]; intros st; [split; reflexivity|].
  cbn [fold_left existsb fst snd].
  destruct (IH (expire_one now st (k, t))) as [H1 H2].
  rewrite H1, H2. clear IH H1 H2. unfold expire_one.
  destruct (existsb _ l); [rewrite orb_true_r; split; reflexivity|].
  rewrite orb_false_r.
  destruct (now - t >=? CACHE_DURATION)%Z; simpl.
  - rewrite !Map_get_delete, andb_true_r.
    destruct (String.eqb k p); split; reflexivity.
  - rewrite andb_false_r. split; reflexivity.
Qed.

Lemma expired_lookup (now : Z) (l : list (string * Z)) (p : string) :
  NoDup (map fst l) ->
  existsb (fun e => String.eqb (fst e) p
                    && (now - snd e >=? CACHE_DURATION)%Z) l
  = match Map_get l p with
    | Some t => (now - t >=? CACHE_DURATION)%Z
    | None => false
    end.
Proof.
  induction l as [|[k t] l IH]; simpl; intros H; [reflexivity|].
  inversion H as [|? ? Hk Hl]; subst.
  destruct (String.eqb k p) eqn:E; simpl.
  - apply String.eqb_eq in E. subst k.
    destruct (now - t >=? CACHE_DURATION)%Z; [reflexivity|]. simpl.
    apply not_true_is_false. intros Hex. apply existsb_exists in Hex.
    destruct Hex as [e [He Hb]]. apply andb_true_iff in Hb.
    destruct Hb as [Hb _]. apply String.eqb_eq in Hb. apply Hk.
    rewrite <- Hb. apply in_map. exact He.
  - apply IH. exact Hl.
Qed.

Lemma Map_get_absent {V} (m : JsMap V) (p : string) :
  ~ In p (map fst m) -> Map_get m p = None.
Proof.
  induction m as [|[k v] m IH]; simpl; intros H; [reflexivity|].
  destruct (String.eqb k p) eqn:E.
  - apply String.eqb_eq in E. tauto.
  - apply IH. tauto.
Qed.

Lemma Map_get_In {V} (m : JsMap V) (p : string) (v : V) :
  Map_get m p = Some v -> In p (map fst m).
Proof.
  induction m as [|[k v0] m IH]; simpl; [discriminate|].
  destruct (String.eqb k p) eqn:E.
  - apply String.eqb_eq in E. auto.
  - intros H. right. apply IH. exact H.
Qed.

(** X15.  On a loader whose maps are paired, clearExpiredCache removes
    exactly the paths whose timestamp is CACHE_DURATION old or older, from
    both maps, and leaves the datum and the timestamp of every other path
    as they were. *)
Theorem clearExpiredCache_exact {Data : Type} (st : State Data) (now : Z)
    (p : string) :
  paired st ->
  let st' := clearExpiredCache now st in
  Map_get (cacheTimestamps st') p
  = match Map_get (cacheTimestamps st) p with
    | Some t => if (now - t >=? CACHE_DURATION)%Z then None else Some t
    | None => None
    end
  /\ Map_get (cache st') p
     = match Map_get (cacheTimestamps st) p with
       | Some t => if (now - t >=? CACHE_DURATION)%Z then None
                   else Map_get (cache st) p
       | None => None
       end.
Proof.
  intros [Hnd Hk]. cbv zeta. unfold clearExpiredCache.
  destruct (fold_expire_get now (cacheTimestamps st) p st) as [H1 H2].
  rewrite H1, H2, expired_lookup by (rewrite Hk; exact Hnd).
  destruct (Map_get (cacheTimestamps st) p) as [t|] eqn:Et.
  - destruct (now - t >=? CACHE_DURATION)%Z; split; reflexivity.
  - split; [reflexivity|]. apply Map_get_absent. rewrite <- Hk.
    intros Hin. apply Map_has_keys in Hin.
    unfold Map_has in Hin. apply existsb_exists in Hin.
    destruct Hin as [[k t] [He Hb]]. simpl in Hb. apply String.eqb_eq in Hb.
    subst k. clear - Et He.
    induction (cacheTimestamps st) as [|[k0 t0] m IH]; simpl in *; [tauto|].
    destruct (String.eqb k0 p) eqn:E; [discriminate|].
    destruct He as [He | He].
    + injection He as -> _. rewrite String.eqb_refl in E. discriminate.
    + apply IH; assumption.
Qed.

(** *** loadData *)

Section LoaderFacts.

Context {Data : Type}.
Variable json : string -> option Data.
Variable stamp : string -> Z -> option URL.
Variable page_fetch : Request -> World -> Settled Response * World.

(** The early return of [loadData]. *)
Lemma loadData_fresh (st : State Data) (p : string) (force : bool) (now : Z) :
  fresh st p force now = true ->
  loadData json stamp page_fetch p force now st
  = (Return (Map_get (cache st) p), st).
Proof. intros H. unfold loadData. rewrite H. reflexivity. Qed.

(** What the try block leaves when it delivers data. *)
Lemma try_load_success (st : State Data) (p : string) (now : Z) (u : URL)
    (response : Response) (w' : World) (data : Data) :
  stamp p now = Some u ->
  page_fetch (mkRequest u "") (world st) = (Fulfilled response, w') ->
  ok response = true ->
  json (body response) = Some data ->
  try_load json stamp page_fetch st p now
  = (inr data,
     mkState (Map_set (cache st) p data)
             (Map_set (cacheTimestamps st) p now) (lines st) w').
Proof.
  intros Hu Hf Hok Hj. unfold try_load. rewrite Hu, Hf, Hok. simpl.
  rewrite Hj. reflexivity.
Qed.

(** The try block never touches the two maps when it throws. *)
Lemma try_load_failure (st : State Data) (p : string) (now : Z)
    (error : LoadError) :
  fst (try_load json stamp page_fetch st p now) = inl error ->
  cache (snd (try_load json stamp page_fetch st p now)) = cache st
  /\ cacheTimestamps (snd (try_load json stamp page_fetch st p now))
     = cacheTimestamps st
  /\ lines (snd (try_load json stamp page_fetch st p now)) = lines st.
Proof.
  unfold try_load. destruct (stamp p now) as [u|]; [|intros _; auto].
  destruct (page_fetch (mkRequest u "") (world st)) as [[response|reason] w'];
    [|intros _; auto].
  destruct (negb (ok response)); [intros _; auto|].
  destruct (json (body response)); [discriminate | intros _; auto].
Qed.

(** X12.  A load that goes to the network and gets an ok response with a
    JSON body returns the parsed data and remembers it: as long as less
    than CACHE_DURATION (five minutes) has passed on the clock, a later
    load of the same path without forceRefresh returns the same data
    without fetching and changes nothing.  This needs the time of the first
    load not to be 0: a zero timestamp counts as absent. *)
Theorem loadData_round_trip
    (st : State Data) (p : string) (force : bool) (now : Z) (u : URL)
    (response : Response) (w' : World) (data : Data) :
  fresh st p force now = false ->
  stamp p now = Some u ->
  page_fetch (mkRequest u "") (world st) = (Fulfilled response, w') ->
  ok response = true ->
  json (body response) = Some data ->
  let st1 := snd (loadData json stamp page_fetch p force now st) in
  fst (loadData json stamp page_fetch p force now st) = Return (Some data)
  /\ (now <> 0%Z ->
      forall now', (now' - now < CACHE_DURATION)%Z ->
        loadData json stamp page_fetch p false now' st1
        = (Return (Some data), st1)).
Proof.
  intros Hfresh Hu Hf Hok Hj. cbv zeta.
  assert (E : loadData json stamp page_fetch p force now st
              = (Return (Some data),
                 mkState (Map_set (cache st) p data)
                         (Map_set (cacheTimestamps st) p now)
                         (lines st) w')).
  { unfold loadData.
    rewrite Hfresh,
      (try_load_success st p now u response w' data Hu Hf Hok Hj).
    reflexivity. }
  rewrite E. cbn [fst snd]. split; [reflexivity|]. intros Hnow now' Hlt.
  rewrite loadData_fresh.
  - cbn [cache]. rewrite Map_get_set_same. reflexivity.
  - unfold fresh. cbn [cache cacheTimestamps negb andb].
    rewrite Map_has_set, Map_get_set_same.
    unfold truthy. apply Z.eqb_neq in Hnow. rewrite Hnow. simpl.
    apply Z.ltb_lt. exact Hlt.
Qed.

(** X13.  When a load goes to the network and the try block throws (the
    URL does not parse, the fetch rejects, the status is not ok, or the
    body is not JSON), the two maps are left as they were; the call then
    returns the entry stored for the path, whatever its age, when there is
    one, and otherwise throws the very error of the try block. *)
Theorem loadData_failure_falls_back
    (st : State Data) (p : string) (force : bool) (now : Z) (error : LoadError) :
  fresh st p force now = false ->
  fst (try_load json stamp page_fetch st p now) = inl error ->
  let result := loadData json stamp page_fetch p force now st in
  cache (snd result) = cache st
  /\ cacheTimestamps (snd result) = cacheTimestamps st
  /\ fst result = if Map_has (cache st) p
                  then Return (Map_get (cache st) p)
                  else Throw error.
Proof.
  intros Hfresh Hfail. cbv zeta.
  destruct (try_load_failure st p now error Hfail) as [Hc [Ht _]].
  unfold loadData. rewrite Hfresh.
  destruct (try_load json stamp page_fetch st p now) as [[e|d] st'] eqn:E;
    simpl in Hfail; [|discriminate Hfail].
  injection Hfail as ->. simpl in Hc, Ht. simpl. rewrite Hc.
  destruct (Map_has (cache st) p); simpl; rewrite ?Hc; auto.
Qed.

(** The ways the try block throws. *)
Lemma try_load_errors (st : State Data) (p : string) (now : Z) :
  (stamp p now = None ->
   fst (try_load json stamp page_fetch st p now) = inl (UrlError p))
  /\ (forall u reason w',
        stamp p now = Some u ->
        page_fetch (mkRequest u "") (world st) = (Rejected reason, w') ->
        fst (try_load json stamp page_fetch st p now)
        = inl (FetchError reason))
  /\ (forall u response w',
        stamp p now = Some u ->
        page_fetch (mkRequest u "") (world st) = (Fulfilled response, w') ->
        ok response = false ->
        fst (try_load json stamp page_fetch st p now)
        = inl (HttpError p response))
  /\ (forall u response w',
        stamp p now = Some u ->
        page_fetch (mkRequest u "") (world st) = (Fulfilled response, w') ->
        ok response = true ->
        json (body response) = None ->
        fst (try_load json stamp page_fetch st p now)
        = inl (JsonError (body response))).
Proof.
  unfold try_load. repeat split.
  - intros ->. reflexivity.
  - intros u reason w' -> ->. reflexivity.
  - intros u response w' -> -> ->. reflexivity.
  - intros u response w' -> -> -> ->. reflexivity.
Qed.

(** What a call of [loadData] does to the two maps: nothing, or one [set]
    in each for the path loaded. *)
Lemma loadData_maps (st : State Data) (p : string) (force : bool) (now : Z) :
  let st' := snd (loadData json stamp page_fetch p force now st) in
  (cache st' = cache st /\ cacheTimestamps st' = cacheTimestamps st)
  \/ (exists data,
        cache st' = Map_set (cache st) p data
        /\ cacheTimestamps st' = Map_set (cacheTimestamps st) p now).
Proof.
  cbv zeta. unfold loadData.
  destruct (fresh st p force now); [left; auto|].
  unfold try_load. destruct (stamp p now) as [u|].
  - destruct (page_fetch (mkRequest u "") (world st))
      as [[response|reason] w'].
    + destruct (negb (ok response)).
      * left. simpl. destruct (Map_has (cache st) p); auto.
      * destruct (json (body response)) as [data|].
        -- right. exists data. auto.
        -- left. simpl. destruct (Map_has (cache st) p); auto.
    + left. simpl. destruct (Map_has (cache st) p); auto.
  - left. simpl. destruct (Map_has (cache st) p); auto.
Qed.

(** X14.  The two maps of a loader go together.  When each path occurs
    once in them and both hold the same paths in the same order, this is
    still so after any call of loadData, of clearCache and of
    clearExpiredCache: no datum is ever kept without its timestamp, nor a
    timestamp without its datum. *)
Theorem loader_maps_stay_paired (st : State Data) :
  paired st ->
  (forall p force now,
      paired (snd (loadData json stamp page_fetch p force now st)))
  /\ paired (clearCache st)
  /\ (forall now, paired (clearExpiredCache now st)).
Proof.
  intros H. split; [|split].
  - intros p force now.
    destruct (loadData_maps st p force now) as [[Hc Ht] | [data [Hc Ht]]];
      destruct H as [Hnd Hk]; unfold paired; rewrite Hc, Ht.
    + split; assumption.
    + rewrite !Map_keys_set, (Map_has_same_keys _ (cache st) p Hk), Hk.
      split; [|reflexivity].
      destruct (Map_has (cache st) p) eqn:Eh; [exact Hnd|].
      apply NoDup_app; [exact Hnd | repeat constructor; intros [] |].
      intros x Hx [<- | []]. apply Map_has_keys in Hx. congruence.
  - split; [constructor | reflexivity].
  - intros now. apply fold_expire_paired. exact H.
Qed.

End LoaderFacts.

(** *** The loader behind the worker *)

(** How the worker answers a page's fetch of a data file when the network
    is down and the store has nothing under that very URL. *)
Lemma controlled_fetch_offline_data (w : World) (u : URL) :
  isDataFile u = true ->
  network w (mkRequest u "") = None ->
  storage_match (caches w) u = None ->
  controlled_fetch (mkRequest u "") w
  = (Fulfilled offline_response, log_fetches w [mkRequest u ""]).
Proof.
  intros Hd Hn Hm. unfold controlled_fetch. rewrite fetch_listener_run.
  simpl url. rewrite Hd, Hn, Hm. reflexivity.
Qed.

Section LoaderBehindWorker.

Context {Data : Type}.
Variable json : string -> option Data.
Variable stamp : string -> Z -> option URL.

(** X16.  Behind the worker, a load that goes to the network while it is
    down never sees the failure of the fetch: when the store has nothing
    under the stamped URL, the worker answers 503 and the loader treats it
    as an HTTP error.  The call returns the loader's own entry for the
    path when it has one, and otherwise throws the error made for the 503
    "Offline" response. *)
Theorem loadData_offline_behind_worker
    (st : State Data) (p : string) (force : bool) (now : Z) (u : URL) :
  fresh st p force now = false ->
  stamp p now = Some u ->
  isDataFile u = true ->
  network (world st) (mkRequest u "") = None ->
  storage_match (caches (world st)) u = None ->
  fst (loadData json stamp controlled_fetch p force now st)
  = if Map_has (cache st) p
    then Return (Map_get (cache st) p)
    else Throw (HttpError p (mkResponse 503 "Offline")).
Proof.
  intros Hfresh Hu Hd Hn Hm. unfold loadData, try_load.
  rewrite Hfresh, Hu, (controlled_fetch_offline_data _ u Hd Hn Hm).
  simpl. destruct (Map_has (cache st) p); reflexivity.
Qed.

(** X17.  The data the worker stores cannot be loaded again offline.  A
    first page loads a data file through the worker with the network up
    (an ok response other than a 206, with a JSON body): it gets the
    parsed data, and the worker stores the response under the stamped
    URL.  Once the network is down, a new page (an empty loader) that
    loads the same path at a time whose stamp gives another URL, under
    which the store held nothing, gets the 503 error, although the data
    generation holds the response. *)
Theorem stored_data_not_loadable_offline
    (w : World) (p : string) (t1 t2 : Z) (u1 u2 : URL)
    (response : Response) (data : Data)
    (net' : Request -> option Response) :
  pending w = [] ->
  stamp p t1 = Some u1 ->
  stamp p t2 = Some u2 ->
  u2 <> u1 ->
  isDataFile u1 = true ->
  isDataFile u2 = true ->
  network w (mkRequest u1 "") = Some response ->
  ok response = true ->
  status response <> 206%Z ->
  json (body response) = Some data ->
  storage_match (caches w) u2 = None ->
  net' (mkRequest u2 "") = None ->
  let first := loadData json stamp controlled_fetch p false t1
                 (mkState [] [] [] w) in
  let w1 := set_network (settle_pending (world (snd first))) net' in
  let second := loadData json stamp controlled_fetch p false t2
                  (mkState [] [] [] w1) in
  fst first = Return (Some data)
  /\ cache_match (entries (caches w1) CACHE_NAME) u1 = Some response
  /\ fst second = Throw (HttpError p (mkResponse 503 "Offline")).
Proof.
  intros Hp H1 H2 Hne Hd1 Hd2 Hn Hok Hst Hj Hm Hoff. cbv zeta.
  apply partial_status in Hst.
  assert (E : loadData json stamp controlled_fetch p false t1
                (mkState [] [] [] w)
              = (Return (Some data),
                 mkState (Map_set [] p data) (Map_set [] p t1) []
                   (set_pending (log_fetches w [mkRequest u1 ""])
                      [OpenThenPut CACHE_NAME u1 response]))).
  { unfold loadData, try_load. cbn [fresh cache negb andb Map_has existsb].
    cbn [world]. rewrite H1. unfold controlled_fetch.
    rewrite fetch_listener_run. simpl url. rewrite Hd1, Hn, Hp.
    cbn [respondWith app]. rewrite Hok. cbn [negb]. rewrite Hj.
    reflexivity. }
  rewrite E. cbn [fst snd world]. split; [reflexivity|].
  assert (Hc : caches (set_network
                 (settle_pending
                    (set_pending (log_fetches w [mkRequest u1 ""])
                       [OpenThenPut CACHE_NAME u1 response])) net')
               = storage_update (storage_open (caches w) CACHE_NAME)
                   CACHE_NAME (fun c => cache_put c u1 response)).
  { cbn [caches set_network].
    apply (settle_single_write (log_fetches w [mkRequest u1 ""])
             CACHE_NAME u1 response Hst). }
  split.
  - rewrite Hc. unfold entries.
    rewrite generation_update, generation_open_eq. simpl.
    apply cache_match_put_same.
  - unfold loadData, try_load. cbn [fresh cache negb andb Map_has existsb].
    cbn [world]. rewrite H2.
    rewrite (controlled_fetch_offline_data _ u2 Hd2).
    + reflexivity.
    + exact Hoff.
    + rewrite Hc, storage_match_update_frame, storage_match_open; [exact Hm|].
      intros c. apply cache_match_put_other. apply URL_eqb_neq. congruence.
Qed.

End LoaderBehindWorker.

(** *** The loader on the sample site *)

Lemma loadData_round_trip_witness :
  DataLoader.loadData text_json site_stamp controlled_fetch
    "data/videos.json" false 250000
    (snd (DataLoader.loadData text_json site_stamp controlled_fetch
            "data/videos.json" false 1000
            (DataLoader.mkState [] [] [] (fresh_world online))))
  = (DataLoader.Return (Some "/data/videos.json?_t=1000"),
     snd (DataLoader.loadData text_json site_stamp controlled_fetch
            "data/videos.json" false 1000
            (DataLoader.mkState [] [] [] (fresh_world online)))).
Proof.
  eapply (loadData_round_trip text_json site_stamp controlled_fetch
            (DataLoader.mkState [] [] [] (fresh_world online))
            "data/videos.json" false 1000).
  - reflexivity.
  - reflexivity.
  - reflexivity.
  - reflexivity.
  - reflexivity.
  - discriminate.
  - reflexivity.
Defined.

Lemma loadData_failure_falls_back_witness :
  fst (DataLoader.loadData text_json site_stamp controlled_fetch
         "data/jokes.json" true 900000 (sample_loader (fresh_world offline)))
  = DataLoader.Return (Some "jokes").
Proof.
  apply (loadData_failure_falls_back text_json site_stamp controlled_fetch
           (sample_loader (fresh_world offline)) "data/jokes.json" true 900000
           (DataLoader.HttpError "data/jokes.json" offline_response)).
  - reflexivity.
  - reflexivity.
Defined.

Lemma loader_maps_stay_paired_witness :
  DataLoader.paired
    (snd (DataLoader.loadData text_json site_stamp controlled_fetch
            "data/videos.json" false 900000
            (sample_loader (fresh_world online)))).
Proof.
  apply (loader_maps_stay_paired text_json site_stamp controlled_fetch
           (sample_loader (fresh_world online))).
  split.
  - simpl. repeat (constructor; [not_listed|]). constructor.
  - reflexivity.
Defined.

Lemma clearExpiredCache_exact_witness :
  DataLoader.Map_get
    (DataLoader.cache
       (DataLoader.clearExpiredCache 500000
          (sample_loader (fresh_world online))))
    "data/jokes.json"
  = None
  /\ DataLoader.Map_get
       (DataLoader.cache
          (DataLoader.clearExpiredCache 500000
             (sample_loader (fresh_world online))))
       "data/themes.json"
     = Some "themes".
Proof.
  split.
  - apply (clearExpiredCache_exact (sample_loader (fresh_world online))
             500000 "data/jokes.json").
    split.
    + simpl. repeat (constructor; [not_listed|]). constructor.
    + reflexivity.
  - apply (clearExpiredCache_exact (sample_loader (fresh_world online))
             500000 "data/themes.json").
    split.
    + simpl. repeat (constructor; [not_listed|]). constructor.
    + reflexivity.
Defined.

Lemma loadData_offline_behind_worker_witness :
  fst (DataLoader.loadData text_json site_stamp controlled_fetch
         "data/videos.json" false 900000 (sample_loader (fresh_world offline)))
  = DataLoader.Throw
      (DataLoader.HttpError "data/videos.json" (mkResponse 503 "Offline")).
Proof.
  apply (loadData_offline_behind_worker text_json site_stamp
           (sample_loader (fresh_world offline)) "data/videos.json" false
           900000 (mkURL site "/data/videos.json" "?_t=900000")).
  - reflexivity.
  - reflexivity.
  - reflexivity.
  - reflexivity.
  - reflexivity.
Defined.

Lemma stored_data_not_loadable_offline_witness :
  fst (DataLoader.loadData text_json site_stamp controlled_fetch
         "data/videos.json" false 2000
         (DataLoader.mkState [] [] []
            (set_network
               (settle_pending
                  (DataLoader.world
                     (snd (DataLoader.loadData text_json site_stamp
                             controlled_fetch "data/videos.json" false 1000
                             (DataLoader.mkState [] [] []
                                (fresh_world online))))))
               offline)))
  = DataLoader.Throw
      (DataLoader.HttpError "data/videos.json" (mkResponse 503 "Offline")).
Proof.
  apply (stored_data_not_loadable_offline text_json site_stamp
           (fresh_world online) "data/videos.json" 1000 2000
           (mkURL site "/data/videos.json" "?_t=1000")
           (mkURL site "/data/videos.json" "?_t=2000")
           (mkResponse 200 "/data/videos.json?_t=1000")
           "/data/videos.json?_t=1000" offline).
  - reflexivity.
  - reflexivity.
  - reflexivity.
  - intros H. discriminate H.
  - reflexivity.
  - reflexivity.
  - reflexivity.
  - reflexivity.
  - discriminate.
  - reflexivity.
  - reflexivity.
  - reflexivity.
Defined.

(* ================================================================== *)
(** ** The earlier revision, and the upgrade from it *)

(** The fetch listener of the earlier revision, in closed form. *)
Lemma v1_fetch_listener_run (w : World) (request : Request) :
  V1.fetch_listener request w
  = match storage_match (caches w) (url request) with
    | Some r => (Fulfilled (Some r), w)
    | None =>
        match network w request with
        | Some r => (Fulfilled (Some r), log_fetches w [request])
        | None =>
            (Fulfilled (if String.eqb (destination request) "document"
                        then storage_match (caches w)
                               (resolve_url w "/index.html")
                        else None),
             log_fetches w [request])
        end
    end.
Proof.
  unfold V1.fetch_listener, catch_, then_, caches_match.
  destruct (storage_match (caches w) (url request)) as [r|]; [reflexivity|].
  unfold fetch. destruct (network w request) as [r|]; [reflexivity|].
  destruct (String.eqb (destination request) "document"); reflexivity.
Qed.

(** X18.  The earlier revision of the worker never writes to the store at
    run time: whatever the request, its fetch listener leaves the cache
    storage as it is and starts no detached write; a request found in the
    store is answered from it without a network request, and a request
    that is not found is fetched again each time. *)
Theorem v1_fetch_never_writes (w : World) (request : Request) :
  let w' := snd (V1.fetch_listener request w) in
  caches w' = caches w
  /\ pending w' = pending w
  /\ (storage_match (caches w) (url request) <> None -> fetched w' = fetched w)
  /\ (storage_match (caches w) (url request) = None ->
      fetched w' = fetched w ++ [request]).
Proof.
  rewrite v1_fetch_listener_run.
  destruct (storage_match (caches w) (url request)) as [r|].
  - simpl. repeat split. intros H. discriminate H.
  - destruct (network w request); simpl; repeat split; intros H;
      exfalso; apply H; reflexivity.
Qed.

Lemma v1_fetch_never_writes_witness :
  fetched (snd (V1.fetch_listener (get "/poster.png" "" "image")
                                  (fresh_world online)))
  = [get "/poster.png" "" "image"].
Proof.
  apply (v1_fetch_never_writes (fresh_world online)
           (get "/poster.png" "" "image")).
  reflexivity.
Defined.

(** The store after the install listener of the earlier revision. *)
Lemma v1_install_listener_run (w : World) :
  V1.install_listener w
  = let requests := map (manifest_request w) V1.urlsToCache in
    let w1 := log_fetches (self_skipWaiting w) requests in
    match fetch_all (network w) requests with
    | Some es =>
        (Fulfilled tt,
         set_caches w1
           (storage_update (storage_open (caches w) V1.CACHE_NAME)
              V1.CACHE_NAME (fun c => put_all c es)))
    | None =>
        (Fulfilled tt,
         log_console
           (set_caches w1 (storage_open (caches w) V1.CACHE_NAME))
           "Cache failed: TypeError: Failed to fetch")
    end.
Proof.
  unfold V1.install_listener, event_waitUntil, catch_, then_,
    caches_open, cache_addAll.
  repeat match goal with
         | |- context [map ?f V1.urlsToCache] =>
             progress change (map f V1.urlsToCache)
               with (map (manifest_request w) V1.urlsToCache)
         end.
  cbn [network caches set_caches self_skipWaiting log_fetches].
  destruct (fetch_all (network w) (map (manifest_request w) V1.urlsToCache));
    reflexivity.
Qed.

Lemma v1_cleanup_run (names : list string) :
  forall w, exists l,
    Promise_all
      (map (fun cacheName =>
              if negb (String.eqb cacheName V1.CACHE_NAME)
              then caches_delete cacheName >>= (fun b => resolve (Some b))
              else resolve None)
           names) w
    = (Fulfilled l,
       set_caches w
         (fold_left (fun s n => if String.eqb n V1.CACHE_NAME then s
                                else storage_delete s n)
                    names (caches w))).
Proof.
  set (f := fun cacheName : string =>
              if negb (String.eqb cacheName V1.CACHE_NAME)
              then caches_delete cacheName >>= (fun b => resolve (Some b))
              else resolve None).
  induction names as [|n names IH]; intros w.
  - exists []. reflexivity.
  - cbn [map Promise_all fold_left]. unfold f at 1.
    destruct (String.eqb n V1.CACHE_NAME) eqn:E; cbn [negb].
    + unfold resolve at 1. destruct (IH w) as [l Hl]. rewrite Hl.
      eexists. reflexivity.
    + unfold then_ at 1, caches_delete at 1, resolve at 1.
      destruct (IH (set_caches w (storage_delete (caches w) n))) as [l Hl].
      rewrite Hl. eexists. reflexivity.
Qed.

(** After the activate listener of the earlier revision, a store that held
    its cache only still holds it, untouched. *)
Lemma v1_activate_alone (w : World) (c : Cache) :
  caches w = [(V1.CACHE_NAME, c)] ->
  exists l,
    V1.activate_listener w
    = (Fulfilled l, self_clients_claim w).
Proof.
  intros Hc.
  destruct (v1_cleanup_run (storage_keys (caches (self_clients_claim w)))
              (self_clients_claim w)) as [l Hl].
  exists l.
  change (V1.activate_listener w)
    with (Promise_all
            (map (fun cacheName =>
                    if negb (String.eqb cacheName V1.CACHE_NAME)
                    then caches_delete cacheName
                           >>= (fun b => resolve (Some b))
                    else resolve None)
                 (storage_keys (caches (self_clients_claim w))))
            (self_clients_claim w)).
  rewrite Hl. cbn [caches self_clients_claim]. rewrite Hc. simpl fold_left.
  rewrite <- Hc. reflexivity.
Qed.

Lemma manifest_entries_In (w : World) (urls : list string) :
  forall es,
    Forall2 (fun rq e => fst e = url rq /\ network w rq = Some (snd e))
            (map (manifest_request w) urls) es ->
    forall e, In e es ->
      exists q, In q urls /\ fst e = resolve_url w q
                /\ network w (manifest_request w q) = Some (snd e).
Proof.
  induction urls as [|q urls IH]; intros es HF e He; simpl in HF.
  - inversion HF; subst. destruct He.
  - inversion HF as [|rq e0 rs es0 [Hk Hn] HF']; subst.
    destruct He as [<- | He].
    + exists q. split; [left; reflexivity|]. split; assumption.
    + destruct (IH es0 HF' e He) as [q' [H1 H2]]. exists q'.
      split; [right; exact H1 | exact H2].
Qed.

Lemma manifest_entries_mem (w : World) (urls : list string) (p : string)
    (r : Response) :
  In p urls ->
  network w (manifest_request w p) = Some r ->
  forall es,
    Forall2 (fun rq e => fst e = url rq /\ network w rq = Some (snd e))
            (map (manifest_request w) urls) es ->
    In (resolve_url w p, r) es.
Proof.
  intros Hp Hr. induction urls as [|q urls IH]; intros es HF; [destruct Hp|].
  simpl in HF. inversion HF as [|rq e0 rs es0 [Hk Hn] HF']; subst.
  destruct Hp as [-> | Hp].
  - left. destruct e0 as [k a]. simpl in Hk, Hn. rewrite Hr in Hn.
    injection Hn as <-. rewrite Hk. reflexivity.
  - right. apply IH; assumption.
Qed.

Lemma manifest_put_all_match (w : World) (urls : list string)
    (es : list (URL * Response)) (p : string) (r : Response) :
  fetch_all (network w) (map (manifest_request w) urls) = Some es ->
  In p urls ->
  network w (manifest_request w p) = Some r ->
  forall c, cache_match (put_all c es) (resolve_url w p) = Some r.
Proof.
  intros Hes Hp Hr c.
  pose proof (fetch_all_Forall2 _ _ _ Hes) as HF.
  apply put_all_match.
  - intros r' Hr'.
    destruct (manifest_entries_In w urls es HF _ Hr') as [q [_ [Hk Ha]]].
    simpl in Hk, Ha. unfold resolve_url in Hk. injection Hk as <-.
    rewrite Hr in Ha. injection Ha as ->. reflexivity.
  - left. apply (manifest_entries_mem w urls p r Hp Hr es HF).
Qed.

Lemma data_paths_not_in_manifest (w : World) (p : string)
    (es : list (URL * Response)) :
  In p DATA_FILES ->
  fetch_all (network w) (map (manifest_request w) urlsToCache) = Some es ->
  forall e, In e es -> fst e <> resolve_url w p.
Proof.
  intros Hp Hes e He Hk.
  pose proof (fetch_all_Forall2 _ _ _ Hes) as HF.
  pose proof (Forall2_map_fst_url _ _ _ HF) as Hm.
  apply (in_map fst) in He. rewrite Hm, map_map in He.
  apply in_map_iff in He. destruct He as [q [Hq Hin]].
  rewrite Hk in Hq. unfold manifest_request, resolve_url in Hq. simpl in Hq.
  injection Hq as ->.
  pose proof (manifest_paths_static w p Hin) as Hs.
  assert (Ht : isDataFile (resolve_url w p) = true)
    by (apply isDataFile_In; exact Hp).
  congruence.
Qed.

(** X19.  Upgrading from the earlier revision loses the offline copies of
    the data files.  On an origin with an empty store, the earlier
    revision precaches the data files with the rest of its manifest (every
    fetch answered with an ok status other than 206) and serves them when
    the network is down.  Once this revision has been
    installed and activated over it, the only cache left is the static
    generation, which holds no data file: with the network down, the same
    request for a data file now gets the synthetic 503. *)
Theorem upgrade_drops_precached_data
    (w : World) (p : string) (r : Response)
    (net' : Request -> option Response) :
  caches w = [] ->
  (forall q, In q V1.urlsToCache ->
             exists a, network w (manifest_request w q) = Some a
                       /\ ok a = true /\ status a <> 206%Z) ->
  In p DATA_FILES ->
  network w (manifest_request w p) = Some r ->
  net' (manifest_request w p) = None ->
  let w1 := snd (V1.activate_listener (snd (V1.install_listener w))) in
  let w2 := snd (activate_listener (snd (install_listener w1))) in
  fst (V1.fetch_listener (manifest_request w p) (set_network w1 net'))
  = Fulfilled (Some r)
  /\ storage_keys (caches w2) = [STATIC_CACHE_NAME]
  /\ fst (fetch_listener (manifest_request w p) (set_network w2 net'))
     = Fulfilled (Some (mkResponse 503 "Offline")).
Proof.
  intros Hc Hall Hp Hr Hoff.
  assert (HpV1 : In p V1.urlsToCache).
  { simpl in Hp. simpl.
    repeat (destruct Hp as [<- | Hp]; [tauto|]). contradiction. }
  destruct (fetch_all_success (network w)
              (map (manifest_request w) V1.urlsToCache)) as [es1 [Hes1 _]].
  { intros rq Hrq. apply in_map_iff in Hrq. destruct Hrq as [q [<- Hq]].
    apply Hall. exact Hq. }
  pose proof (v1_install_listener_run w) as Hi. cbv zeta in Hi.
  rewrite Hes1, Hc in Hi.
  change (storage_update (storage_open [] V1.CACHE_NAME) V1.CACHE_NAME
            (fun c => put_all c es1))
    with [(V1.CACHE_NAME, put_all [] es1)] in Hi.
  cbv zeta. rewrite Hi. cbn [snd].
  match goal with
  | |- context [V1.activate_listener ?wi] =>
      destruct (v1_activate_alone wi (put_all [] es1) eq_refl) as [l Hl];
      rewrite Hl
  end.
  cbn [snd]. split; [|split].
  - rewrite v1_fetch_listener_run. cbn [caches set_network set_caches
      self_clients_claim storage_match url manifest_request].
    rewrite (manifest_put_all_match w V1.urlsToCache es1 p r Hes1 HpV1 Hr).
    reflexivity.
  - match goal with
    | |- context [activate_listener ?wi] =>
        destruct (activate_listener_run wi) as [l2 Hl2]; rewrite Hl2
    end.
    cbn [snd caches set_caches]. rewrite install_listener_caches.
    cbn [caches set_caches self_clients_claim network log_fetches
         self_skipWaiting].
    match goal with
    | |- context [fetch_all ?n ?rs] => destruct (fetch_all n rs)
    end; reflexivity.
  - match goal with
    | |- context [activate_listener ?wi] =>
        destruct (activate_listener_run wi) as [l2 Hl2]; rewrite Hl2
    end.
    cbn [snd]. rewrite fetch_listener_run.
    assert (Hd : isDataFile (url (manifest_request w p)) = true)
      by (apply isDataFile_In; exact Hp).
    rewrite Hd. cbn [network set_network]. rewrite Hoff.
    cbn [caches set_network set_caches]. rewrite install_listener_caches.
    cbn [caches set_caches self_clients_claim network log_fetches
         self_skipWaiting].
    match goal with
    | |- context [fetch_all ?n ?rs] => destruct (fetch_all n rs) as [es2|] eqn:Hes2
    end.
    + change (storage_update
                (storage_open [(V1.CACHE_NAME, put_all [] es1)]
                   STATIC_CACHE_NAME)
                STATIC_CACHE_NAME (fun c => put_all c es2))
        with [(V1.CACHE_NAME, put_all [] es1);
              (STATIC_CACHE_NAME, put_all [] es2)].
      cbn [filter current fst String.eqb]. simpl filter. simpl storage_match.
      rewrite put_all_frame; [reflexivity|].
      apply (data_paths_not_in_manifest _ p es2 Hp Hes2).
    + reflexivity.
Qed.

Lemma upgrade_drops_precached_data_witness :
  let w1 := snd (V1.activate_listener
                   (snd (V1.install_listener (fresh_world online)))) in
  let w2 := snd (activate_listener (snd (install_listener w1))) in
  fst (V1.fetch_listener (get "/data/videos.json" "" "")
                         (set_network w1 offline))
  = Fulfilled (Some (mkResponse 200 "/data/videos.json"))
  /\ fst (fetch_listener (get "/data/videos.json" "" "")
                         (set_network w2 offline))
     = Fulfilled (Some (mkResponse 503 "Offline")).
Proof.
  destruct (upgrade_drops_precached_data (fresh_world online)
              "/data/videos.json" (mkResponse 200 "/data/videos.json")
              offline) as [H1 [_ H3]].
  - reflexivity.
  - intros q _. eexists.
    split; [reflexivity | split; [reflexivity | discriminate]].
  - simpl. tauto.
  - reflexivity.
  - reflexivity.
  - split; [exact H1 | exact H3].
Defined.

(* ================================================================== *)
(** ** The static policy serves from the store first *)

(** On a partitioned store no cache called as the data generation holds a
    URL that is not a data file. *)
Lemma partitioned_data_caches_miss (s : CacheStorage) (k : URL) :
  sorted_store s ->
  isDataFile k = false ->
  storage_match (called CACHE_NAME s) k = None.
Proof.
  intros [_ H] Hk. unfold called.
  induction s as [|[n c] s IH]; simpl; [reflexivity|].
  assert (Hs : forall m c', In (m, c') s ->
             (m = CACHE_NAME \/ m = STATIC_CACHE_NAME)
             /\ forall k' r, In (k', r) c' -> home k' = m).
  { intros m c' Hin. apply H. right. exact Hin. }
  destruct (String.eqb n CACHE_NAME) eqn:E; simpl; [|apply IH; exact Hs].
  apply String.eqb_eq in E. subst n.
  rewrite (sorted_cache_miss c CACHE_NAME k).
  - apply IH. exact Hs.
  - apply (H CACHE_NAME c). left. reflexivity.
  - unfold home. rewrite Hk. discriminate.
Qed.

(** C5 (as amended).  A request handed to the static policy whose URL the
    store holds is answered at once with the stored response and the world
    is left as it was: no network request is issued.  The lookup is made
    across the caches; the response is the static generation's one when no
    other cache holds the URL, which is so on every partitioned store,
    hence on every store the worker built from an empty one.  For every p
    in the manifest, after an install whose population succeeded (every
    manifest fetch answered with an ok status other than 206) followed by
    activate, a request for p is answered with the static generation's
    entry, the response fetched at install, without a network request:
    whatever caches of earlier revisions the install found, provided no
    cache called as the data generation held p's URL (none does on a
    partitioned store). *)
Theorem static_policy_cache_first :
  (forall (w : World) (request : Request) (r : Response),
      ~ In (pathname (url request)) DATA_FILES ->
      storage_match (caches w) (url request) = Some r ->
      fetch_listener request w = (Fulfilled (Some r), w))
  /\ (forall (w : World) (request : Request) (c : Cache) (r : Response),
        ~ In (pathname (url request)) DATA_FILES ->
        generation (caches w) STATIC_CACHE_NAME = Some c ->
        cache_match c (url request) = Some r ->
        storage_match (storage_delete (caches w) STATIC_CACHE_NAME)
                      (url request) = None ->
        fetch_listener request w = (Fulfilled (Some r), w))
  /\ (forall (w : World) (request : Request) (r : Response),
        ~ In (pathname (url request)) DATA_FILES ->
        partitioned w ->
        cache_match (entries (caches w) STATIC_CACHE_NAME) (url request)
        = Some r ->
        fetch_listener request w = (Fulfilled (Some r), w))
  /\ (forall (w : World) (p : string) (r : Response) (dest : string)
             (net' : Request -> option Response),
        In p urlsToCache ->
        (forall q, In q urlsToCache ->
                   exists a, network w (manifest_request w q) = Some a
                             /\ ok a = true /\ status a <> 206%Z) ->
        network w (manifest_request w p) = Some r ->
        storage_match (called CACHE_NAME (caches w)) (resolve_url w p)
        = None ->
        let w2 := snd (activate_listener (snd (install_listener w))) in
        (exists c, generation (caches w2) STATIC_CACHE_NAME = Some c
                   /\ cache_match c (resolve_url w p) = Some r)
        /\ fetch_listener (mkRequest (resolve_url w p) dest)
                          (set_network w2 net')
           = (Fulfilled (Some r), set_network w2 net'))
  /\ (forall (w : World) (p : string),
        In p urlsToCache ->
        partitioned w ->
        storage_match (called CACHE_NAME (caches w)) (resolve_url w p)
        = None).
Proof.
  split; [|split; [|split; [|split]]].
  - intros w request r Hp Hm. apply static_policy_hit; [|exact Hm].
    apply isDataFile_not_In. exact Hp.
  - intros w request c r Hp Hg Hc Hd. apply static_policy_hit.
    + apply isDataFile_not_In. exact Hp.
    + apply (storage_match_only_generation _ STATIC_CACHE_NAME c); assumption.
  - intros w request r Hp [Hs _] Hc. apply isDataFile_not_In in Hp.
    apply static_policy_hit; [exact Hp|].
    rewrite (sorted_store_lookup (caches w) (url request) Hs).
    unfold home. rewrite Hp. exact Hc.
  - intros w p r dest net' Hp Hall Hr Hd.
    destruct (fetch_all_success (network w)
                (map (manifest_request w) urlsToCache)) as [es [Hes _]].
    { intros rq Hrq. apply in_map_iff in Hrq. destruct Hrq as [q [<- Hq]].
      apply Hall. exact Hq. }
    pose proof (manifest_put_all_match w urlsToCache es p r Hes Hp Hr)
      as Hput.
    cbv zeta. split.
    + rewrite (install_activate_run w es Hes).
      rewrite generation_filter_current by reflexivity.
      rewrite generation_update.
      destruct (generation_open (caches w) STATIC_CACHE_NAME) as [c0 Hc0].
      rewrite Hc0. simpl. eexists. split; [reflexivity | apply Hput].
    + apply static_policy_hit.
      * apply manifest_paths_static. exact Hp.
      * change (storage_match
                  (caches (snd (activate_listener (snd (install_listener w)))))
                  (resolve_url w p) = Some r).
        apply (install_activate_serves_manifest w p r Hp Hall Hr Hd).
  - intros w p Hp [Hs _]. apply partitioned_data_caches_miss; [exact Hs|].
    apply manifest_paths_static. exact Hp.
Qed.

(** C5, witness: an upgrade.  The earlier revision has filled its cache
    with its whole manifest; this revision is installed and activated over
    it, and the stylesheet is then requested with the network down. *)
Lemma static_policy_cache_first_witness :
  let w1 := snd (V1.activate_listener
                   (snd (V1.install_listener (fresh_world online)))) in
  let w2 := snd (activate_listener (snd (install_listener w1))) in
  fetch_listener (get "/styles.css" "" "style") (set_network w2 offline)
  = (Fulfilled (Some (mkResponse 200 "/styles.css")),
     set_network w2 offline).
Proof.
  cbv zeta.
  destruct static_policy_cache_first as [_ [_ [_ [H _]]]].
  apply (H (snd (V1.activate_listener
                   (snd (V1.install_listener (fresh_world online)))))
           "/styles.css" (mkResponse 200 "/styles.css") "style" offline).
  - simpl. tauto.
  - intros q _. eexists.
    split; [reflexivity | split; [reflexivity | discriminate]].
  - reflexivity.
  - reflexivity.
Defined.

(** C5, as stated, fails: install followed by activate does not make the
    manifest servable from the store.  On a fresh origin with the network
    down at install, the population fails, the failure is swallowed and
    the static generation is empty: a later request for the stylesheet
    misses the store and goes to the network, which answers it when it is
    back and leaves the page without a response when it is not. *)
Lemma failed_install_leaves_manifest_unserved :
  let request := get "/styles.css" "" "style" in
  let w2 := snd (activate_listener
                   (snd (install_listener (fresh_world offline)))) in
  generation (caches w2) STATIC_CACHE_NAME = Some []
  /\ fst (fetch_listener request w2) = Fulfilled None
  /\ fetched (snd (fetch_listener request w2)) = fetched w2 ++ [request]
  /\ fetched (snd (fetch_listener request (set_network w2 online)))
     = fetched w2 ++ [request].
Proof. repeat split. Qed.

(* ================================================================== *)
(** ** YouTubeEmbed.js: extractVideoId *)

Local Open Scope string_scope.

Lemma after_app (l s rest : string) :
  YouTubeEmbed.after l s = Some rest -> s = l ++ rest.
Proof.
  revert s. induction l as [|a l IH]; intros s H; simpl in H.
  - injection H as ->. reflexivity.
  - destruct s as [|b s]; [discriminate H|].
    destruct (Ascii.eqb a b) eqn:E; [|discriminate H].
    apply Ascii.eqb_eq in E. subst b. simpl. rewrite (IH s H). reflexivity.
Qed.

Lemma every_app (f : ascii -> bool) (a b : string) :
  YouTubeEmbed.every f (a ++ b)
  = YouTubeEmbed.every f a && YouTubeEmbed.every f b.
Proof.
  induction a as [|c a IH]; simpl; [reflexivity|].
  rewrite IH. apply andb_assoc.
Qed.

Lemma id_run_spec (s : string) :
  exists post,
    s = YouTubeEmbed.id_run s ++ post
    /\ YouTubeEmbed.every YouTubeEmbed.id_char (YouTubeEmbed.id_run s) = true
    /\ (post = ""
        \/ exists c rest, post = String c rest
                          /\ YouTubeEmbed.id_char c = false).
Proof.
  induction s as [|c s IH]; simpl.
  - exists "". auto.
  - destruct (YouTubeEmbed.id_char c) eqn:E.
    + destruct IH as [post [H1 [H2 H3]]]. exists post. simpl.
      rewrite E, H2, <- H1. auto.
    + exists (String c s). split; [reflexivity|]. split; [reflexivity|].
      right. exists c, s. auto.
Qed.

Lemma id_run_app (id tail : string) :
  YouTubeEmbed.every YouTubeEmbed.id_char id = true ->
  (tail = ""
   \/ exists c rest, tail = String c rest /\ YouTubeEmbed.id_char c = false) ->
  YouTubeEmbed.id_run (id ++ tail) = id.
Proof.
  intros Hid Htail. induction id as [|c id IH]; simpl in *.
  - destruct Htail as [-> | [c [rest [-> Hc]]]]; simpl; [reflexivity|].
    rewrite Hc. reflexivity.
  - apply andb_true_iff in Hid. destruct Hid as [Hc Hid].
    rewrite Hc, (IH Hid). reflexivity.
Qed.

Lemma match_here_sound (literals : list string) (s id : string) :
  YouTubeEmbed.match_here literals s = Some id ->
  exists l rest,
    In l literals /\ s = l ++ rest
    /\ YouTubeEmbed.id_run rest = id /\ id <> "".
Proof.
  induction literals as [|l ls IH]; simpl; [discriminate|].
  intros H.
  assert (Hrec : YouTubeEmbed.match_here ls s = Some id ->
                 exists l0 rest,
                   (l = l0 \/ In l0 ls) /\ s = l0 ++ rest
                   /\ YouTubeEmbed.id_run rest = id /\ id <> "").
  { intros H'. destruct (IH H') as [l0 [rest [H1 H2]]].
    exists l0, rest. auto. }
  destruct (YouTubeEmbed.after l s) as [rest|] eqn:Ea; [|auto].
  destruct (YouTubeEmbed.id_run rest) as [|c run] eqn:Er; [auto|].
  injection H as <-. exists l, rest. split; [left; reflexivity|].
  split; [apply after_app; exact Ea|]. split; [exact Er | discriminate].
Qed.

Lemma first_match_sound (literals : list string) (s id : string) :
  YouTubeEmbed.first_match literals s = Some id ->
  exists pre l rest,
    In l literals /\ s = pre ++ l ++ rest
    /\ YouTubeEmbed.id_run rest = id /\ id <> "".
Proof.
  induction s as [|c s IH]; simpl.
  - destruct (YouTubeEmbed.match_here literals "") as [id'|] eqn:E;
      [|discriminate].
    intros H. injection H as ->.
    destruct (match_here_sound _ _ _ E) as [l [rest [H1 H2]]].
    exists "", l, rest. auto.
  - destruct (YouTubeEmbed.match_here literals (String c s)) as [id'|] eqn:E.
    + intros H. injection H as ->.
      destruct (match_here_sound _ _ _ E) as [l [rest [H1 H2]]].
      exists "", l, rest. auto.
    + intros H. destruct (IH H) as [pre [l [rest [H1 [H2 H3]]]]].
      exists (String c pre), l, rest. split; [exact H1|].
      split; [simpl; rewrite H2; reflexivity | exact H3].
Qed.

(** X20.  Whatever extractVideoId returns is an identifier taken from the
    URL: it is not empty, it contains none of the characters & ? # and
    line feed, it stands in the URL right after one of the three markers
    (youtube.com/watch?v=, youtu.be/, youtube.com/shorts/), and it runs to
    the end of the URL or to the first of those four characters.  For
    such an identifier getEmbedUrl gives a proper embed address, never the
    empty string. *)
Theorem extractVideoId_sound (url id : string) :
  YouTubeEmbed.extractVideoId url = Some id ->
  id <> ""
  /\ YouTubeEmbed.every YouTubeEmbed.id_char id = true
  /\ (exists marker pre post,
        In marker ["youtube.com/watch?v="; "youtu.be/"; "youtube.com/shorts/"]
        /\ url = pre ++ marker ++ id ++ post
        /\ (post = ""
            \/ exists c rest, post = String c rest
                              /\ YouTubeEmbed.id_char c = false))
  /\ YouTubeEmbed.getEmbedUrl id = "https://www.youtube.com/embed/" ++ id.
Proof.
  unfold YouTubeEmbed.extractVideoId.
  destruct (String.eqb url ""); [discriminate|].
  intros H.
  assert (Hm : exists pre l rest,
             In l ["youtube.com/watch?v="; "youtu.be/"; "youtube.com/shorts/"]
             /\ url = pre ++ l ++ rest
             /\ YouTubeEmbed.id_run rest = id /\ id <> "").
  { destruct (YouTubeEmbed.first_match
                ["youtube.com/watch?v="; "youtu.be/"] url) as [id'|] eqn:E.
    - injection H as ->.
      destruct (first_match_sound _ _ _ E) as [pre [l [rest [H1 H2]]]].
      exists pre, l, rest. split; [|exact H2]. simpl in *. tauto.
    - destruct (first_match_sound _ _ _ H) as [pre [l [rest [H1 H2]]]].
      exists pre, l, rest. split; [|exact H2]. simpl in *. tauto. }
  destruct Hm as [pre [l [rest [Hl [Hu [Hr Hne]]]]]].
  destruct (id_run_spec rest) as [post [H1 [H2 H3]]]. rewrite Hr in H1, H2.
  split; [exact Hne|]. split; [exact H2|]. split.
  - exists l, pre, post. split; [exact Hl|]. split; [|exact H3].
    rewrite Hu, H1. reflexivity.
  - unfold YouTubeEmbed.getEmbedUrl. destruct id; [congruence | reflexivity].
Qed.

Lemma extractVideoId_sound_witness :
  YouTubeEmbed.every YouTubeEmbed.id_char "hDaA-bs1wN4" = true.
Proof.
  apply (extractVideoId_sound
           "https://www.youtube.com/watch?v=hDaA-bs1wN4&t=99" "hDaA-bs1wN4").
  reflexivity.
Defined.

Lemma no_slash_no_match (s : string) :
  YouTubeEmbed.every (fun c => negb (Ascii.eqb c "/")) s = true ->
  YouTubeEmbed.first_match ["youtube.com/watch?v="; "youtu.be/"] s = None.
Proof.
  assert (Hhere : forall s,
            YouTubeEmbed.every (fun c => negb (Ascii.eqb c "/")) s = true ->
            YouTubeEmbed.match_here ["youtube.com/watch?v="; "youtu.be/"] s
            = None).
  { intros s0 H0.
    destruct (YouTubeEmbed.match_here ["youtube.com/watch?v="; "youtu.be/"]
                s0) as [id|] eqn:E; [|reflexivity].
    destruct (match_here_sound _ _ _ E) as [l [rest [Hl [Hs _]]]].
    rewrite Hs, every_app in H0. apply andb_true_iff in H0.
    destruct H0 as [H0 _]. simpl in Hl.
    destruct Hl as [<- | [<- | []]]; discriminate H0. }
  induction s as [|c s IH]; intros H.
  - simpl. reflexivity.
  - change (YouTubeEmbed.first_match
              ["youtube.com/watch?v="; "youtu.be/"] (String c s))
      with (match YouTubeEmbed.match_here
                    ["youtube.com/watch?v="; "youtu.be/"] (String c s) with
            | Some id => Some id
            | None => YouTubeEmbed.first_match
                        ["youtube.com/watch?v="; "youtu.be/"] s
            end).
    rewrite (Hhere _ H). apply IH. simpl in H.
    apply andb_true_iff in H. tauto.
Qed.

(** X21.  The three URL shapes named in the source give back the
    identifier they were built from.  For a non-empty identifier made of
    characters other than & ? # and line feed, followed by nothing or by
    one of those characters: a watch URL and a youtu.be URL give the
    identifier; so does a shorts URL when no slash follows the marker. *)
Theorem extractVideoId_recovers_id (id tail : string) :
  id <> "" ->
  YouTubeEmbed.every YouTubeEmbed.id_char id = true ->
  (tail = ""
   \/ exists c rest, tail = String c rest /\ YouTubeEmbed.id_char c = false) ->
  YouTubeEmbed.extractVideoId ("https://www.youtube.com/watch?v=" ++ id ++ tail)
  = Some id
  /\ YouTubeEmbed.extractVideoId ("https://youtu.be/" ++ id ++ tail) = Some id
  /\ (YouTubeEmbed.every (fun c => negb (Ascii.eqb c "/")) (id ++ tail) = true ->
      YouTubeEmbed.extractVideoId ("https://youtube.com/shorts/" ++ id ++ tail)
      = Some id).
Proof.
  intros Hne Hid Htail.
  pose proof (id_run_app id tail Hid Htail) as Hrun.
  split; [|split].
  - unfold YouTubeEmbed.extractVideoId. simpl. rewrite Hrun.
    destruct id; [congruence | reflexivity].
  - unfold YouTubeEmbed.extractVideoId. simpl. rewrite Hrun.
    destruct id; [congruence | reflexivity].
  - intros Hslash. unfold YouTubeEmbed.extractVideoId. simpl.
    rewrite (no_slash_no_match _ Hslash). simpl. rewrite Hrun.
    destruct id; [congruence | reflexivity].
Qed.

Lemma extractVideoId_recovers_id_witness :
  YouTubeEmbed.extractVideoId "https://youtu.be/mT_3-rIx8DE?si=abc"
  = Some "mT_3-rIx8DE".
Proof.
  destruct (extractVideoId_recovers_id "mT_3-rIx8DE" "?si=abc")
    as [_ [H _]].
  - discriminate.
  - reflexivity.
  - right. exists "?"%char, "si=abc". split; reflexivity.
  - exact H.
Defined.
